(** * The mapping store and the candidate ranker of the semantic engine

    A shallow embedding of
    - [semantic_engine/mapping_db/symbol_mapping.py]: the dataclasses
      [LaTeXCandidate] and [SymbolMapping], and [SymbolMappingDatabase] with
      its seed data, lookups, JSON export/import and merge;
    - [semantic_engine/ranking/ranker.py]: [RankedCandidate] and
      [CandidateRanker] with its two ranking entry points;
    - the part of [semantic_engine/integration.py] that builds the store of
      a [SemanticSuggestionEngine].

    Python values are modelled as follows.
    - [float] is an IEEE 754 binary64 number: [spec_float] with precision 53
      and maximal exponent 1024, and the arithmetic of [SpecFloat]
      (round to nearest, ties to even; one NaN).
    - an element of a NumPy array and a NumPy scalar of dtype float16,
      float32 or float64 is the binary64 number it equals, with its dtype
      kept beside it; arithmetic in a dtype rounds to the format of that
      dtype ([DType]). Arrays of other dtypes are not modelled.
    - [int] is [Z]; [str] is [string] (the bytes of the UTF-8 text).
    - [Dict[int, SymbolMapping]] is [gmap Z SymbolMapping]; the order in which
      a dict is iterated is the one of [map_to_list].
    - an exception is a value of [exn], a call that may raise returns a
      [result]; a method that mutates the store is a function from the store
      to an outcome and the store it leaves behind.
    - [numpy] and [json] are libraries of the interpreter, not of this
      repository: what the code needs of them is an interface
      ([NumpyOps], [JsonCodec]). *)

From Stdlib Require Import ZArith List String Ascii Bool Lia Permutation Sorted.
From Stdlib Require Import Floats.SpecFloat DecimalString DecimalZ.
From stdpp Require Import gmap strings list.

Local Open Scope Z_scope.

(** ** Python floats *)

Module Float.

Definition prec : Z := 53.
Definition emax : Z := 1024.

Definition float : Type := spec_float.

Definition add : float → float → float := SFadd prec emax.
Definition sub : float → float → float := SFsub prec emax.
Definition mul : float → float → float := SFmul prec emax.
Definition div : float → float → float := SFdiv prec emax.
Definition abs : float → float := SFabs.

(** [x < y], [x > y], [x <= y] and [x == y]: all false on a NaN. *)
Definition ltb (x y : float) : bool := SFltb x y.
Definition gtb (x y : float) : bool := SFltb y x.
Definition leb (x y : float) : bool := SFleb x y.
Definition eqb (x y : float) : bool := SFeqb x y.

Definition is_nan (x : float) : bool :=
  match x with S754_nan => true | _ => false end.

(** The float of an integer, and the float a decimal literal
    [digits / 10^scale] denotes: both integers are exact floats for the
    literals of the source, and the division rounds their quotient
    correctly, which is how a literal is read. *)
Definition of_Z (z : Z) : float := binary_normalize prec emax z 0 false.
Definition lit (digits scale : Z) : float :=
  div (of_Z digits) (of_Z (10 ^ scale)).

End Float.

Abbreviation float := Float.float.

Arguments Float.add : simpl never.
Arguments Float.sub : simpl never.
Arguments Float.mul : simpl never.
Arguments Float.div : simpl never.
Arguments Float.of_Z : simpl never.
Arguments Float.lit : simpl never.

Declare Scope float_scope.
Delimit Scope float_scope with flt.
Infix "+" := Float.add : float_scope.
Infix "-" := Float.sub : float_scope.
Infix "*" := Float.mul : float_scope.
Infix "/" := Float.div : float_scope.
Infix "<?" := Float.ltb : float_scope.
Infix ">?" := Float.gtb : float_scope.
Infix "<=?" := Float.leb : float_scope.

(** ** The floating-point dtypes of NumPy *)

Module DType.

Inductive t : Type := float16 | float32 | float64.

Definition prec (d : t) : Z :=
  match d with float16 => 11 | float32 => 24 | float64 => 53 end.
Definition emax (d : t) : Z :=
  match d with float16 => 16 | float32 => 128 | float64 => 1024 end.

(** The binary64 number equal to a number of a narrower format: the
    conversion is exact. *)
Definition widen (x : spec_float) : float :=
  match x with
  | S754_finite s m e =>
      binary_normalize Float.prec Float.emax (cond_Zopp s (Z.pos m)) e s
  | _ => x
  end.

(** The result of an operation carried out in the format of [d]. *)
Definition in_format (d : t) (op : Z → Z → spec_float) : float :=
  match d with
  | float64 => op Float.prec Float.emax
  | _ => widen (op (prec d) (emax d))
  end.

Definition add (d : t) (x y : float) : float := in_format d (λ p e, SFadd p e x y).
Definition sub (d : t) (x y : float) : float := in_format d (λ p e, SFsub p e x y).
Definition mul (d : t) (x y : float) : float := in_format d (λ p e, SFmul p e x y).
Definition div (d : t) (x y : float) : float := in_format d (λ p e, SFdiv p e x y).

(** The conversion of a Python float to [d]: the number of the format of
    [d] nearest to it. *)
Definition cast (d : t) (x : float) : float :=
  match d with
  | float64 => x
  | _ =>
      widen match x with
            | S754_finite s m e =>
                binary_normalize (prec d) (emax d) (cond_Zopp s (Z.pos m)) e s
            | _ => x
            end
  end.

End DType.

Arguments DType.add : simpl never.
Arguments DType.sub : simpl never.
Arguments DType.mul : simpl never.
Arguments DType.div : simpl never.
Arguments DType.cast : simpl never.

(** ** Exceptions *)

(** The exceptions the embedded code can raise. [Untyped] is not a Python
    exception: [from_json] stores whatever value a document holds, and the
    records below have the types of the dataclass annotations, so a document
    holding a value of another type has no image in the model. *)
Inductive exn : Type :=
  | ValueError
  | KeyError (key : string)
  | TypeError
  | AttributeError
  | IndexError
  | OSError
  | JSONDecodeError
  | Untyped.

Inductive result (A : Type) : Type :=
  | Ok (a : A)
  | Raise (e : exn).
Arguments Ok {A} a.
Arguments Raise {A} e.

#[global] Instance result_ret : MRet result := λ A a, Ok a.
#[global] Instance result_bind : MBind result := λ A B k r,
  match r with
  | Ok a => k a
  | Raise e => Raise e
  end.

(** A list comprehension whose element expression may raise: the elements are
    evaluated from left to right and the first exception ends it. *)
Fixpoint rmap {A B} (f : A → result B) (l : list A) : result (list B) :=
  match l with
  | [] => Ok []
  | a :: l' => b ← f a; bs ← rmap f l'; Ok (b :: bs)
  end.

(** A [for] loop whose body may raise, over an accumulated state. *)
Fixpoint rfold {A S} (body : S → A → result S) (s : S) (l : list A) : result S :=
  match l with
  | [] => Ok s
  | a :: l' => s' ← body s a; rfold body s' l'
  end.

(** ** Python builtins *)

(** [str(n)] of an integer, which is also the text [json.dumps] writes for an
    integer key: decimal, with [-] before a negative number. *)
Definition py_str (n : Z) : string := NilZero.string_of_int (Z.to_int n).

(** The value of a decimal digit: the characters of codes 48 to 57. *)
Definition digit_of_ascii (c : ascii) : option Z :=
  let code := Z.of_N (N_of_ascii c) in
  if (48 <=? code) && (code <=? 57) then Some (code - 48) else None.

Definition is_digit (c : ascii) : bool :=
  match digit_of_ascii c with Some _ => true | None => false end.

(** The characters [int] takes for white space in an ASCII string: tab,
    line feed, vertical tab, form feed, carriage return and space. *)
Definition is_space (c : ascii) : bool :=
  let n := N_of_ascii c in
  ((9 <=? n) && (n <=? 13) || (n =? 32))%N.

Fixpoint lstrip (s : string) : string :=
  match s with
  | String c r => if is_space c then lstrip r else s
  | EmptyString => s
  end.

Fixpoint rstrip (s : string) : string :=
  match s with
  | String c r =>
      match rstrip r with
      | EmptyString => if is_space c then EmptyString else String c EmptyString
      | r' => String c r'
      end
  | EmptyString => s
  end.

Definition strip (s : string) : string := rstrip (lstrip s).

(** The digits of a decimal literal after its sign: a single underscore may
    stand between two digits. *)
Fixpoint digits_acc (acc : Z) (s : string) : option Z :=
  match s with
  | EmptyString => Some acc
  | String c r =>
      if Ascii.eqb c "_" then
        match r with
        | String d _ => if is_digit d then digits_acc acc r else None
        | EmptyString => None
        end
      else
        match digit_of_ascii c with
        | Some d => digits_acc (10 * acc + d) r
        | None => None
        end
  end.

Definition parse_digits (s : string) : option Z :=
  match s with
  | String c _ => if is_digit c then digits_acc 0 s else None
  | EmptyString => None
  end.

(** [int(s)] of a string, base 10: white space around, an optional sign,
    digits. [ValueError] for anything else. (Digits and white space outside
    ASCII, which [int] also accepts, are not modelled.) *)
Definition py_int (s : string) : result Z :=
  let parsed :=
    match strip s with
    | String "-" r => Z.opp <$> parse_digits r
    | String "+" r => parse_digits r
    | t => parse_digits t
    end in
  match parsed with
  | Some n => Ok n
  | None => Raise ValueError
  end.

(** The position a slice bound [i] denotes in a sequence of length [len]:
    a negative bound counts from the end, and bounds are clamped. *)
Definition slice_bound (len : nat) (i : Z) : nat :=
  Z.to_nat (Z.min (Z.of_nat len) (if i <? 0 then Z.max 0 (Z.of_nat len + i) else i)).

(** [l[i:]] and [l[:i]]. *)
Definition slice_from {A} (i : Z) (l : list A) : list A :=
  drop (slice_bound (length l) i) l.
Definition slice_to {A} (i : Z) (l : list A) : list A :=
  take (slice_bound (length l) i) l.

(** The sort of [list.sort] and [sorted]: ascending for [lt], stable, and
    using no other comparison than [lt]. An element moves in front of the
    elements of the sorted rest that are strictly smaller than it, and of no
    other. (CPython sorts by merging runs; where [lt] is a strict weak order
    every stable sort returns this same list.) *)
Fixpoint sort_insert {A} (lt : A → A → bool) (x : A) (l : list A) : list A :=
  match l with
  | [] => [x]
  | y :: l' => if lt y x then y :: sort_insert lt x l' else x :: l
  end.

Definition list_sort {A} (lt : A → A → bool) (l : list A) : list A :=
  foldr (sort_insert lt) [] l.

(** [sorted(l, key=key, reverse=True)] for a float key: the list is reversed,
    sorted in ascending order of the key and reversed again, which keeps
    elements of equal key in their order in [l]. *)
Definition sorted_reverse {A} (key : A → float) (l : list A) : list A :=
  reverse (list_sort (λ a b, key a <? key b)%flt (reverse l)).

(** ** Data model *)

Module LaTeXCandidate.
Record t : Type := make {
  command : string;
  math_priority : float;
  context : string;
  description : option string
}.
End LaTeXCandidate.

Module SymbolMapping.
Record t : Type := make {
  symbol_class_id : Z;
  symbol_name : string;
  latex_candidates : list LaTeXCandidate.t
}.

(** [sorted(self.latex_candidates, key=lambda x: x.math_priority, reverse=True)] *)
Definition get_ranked_candidates (self : t) : list LaTeXCandidate.t :=
  sorted_reverse LaTeXCandidate.math_priority (latex_candidates self).
End SymbolMapping.

(** A [SymbolMappingDatabase] has one attribute, [mappings]: the object is
    modelled by that dict. *)
Abbreviation store := (gmap Z SymbolMapping.t).

(** ** JSON documents *)

(** What [json.loads] returns and [json.dumps] takes. The list of a [JObj] is
    the one of [dict.items()]: its keys are pairwise distinct in every value
    that Python builds. *)
#[warnings="-register-all"]
Inductive json : Type :=
  | JNull
  | JBool (b : bool)
  | JInt (n : Z)
  | JFloat (x : float)
  | JStr (s : string)
  | JList (l : list json)
  | JObj (items : list (string * json)).

Fixpoint dict_get (key : string) (items : list (string * json)) : option json :=
  match items with
  | [] => None
  | (k, v) :: items' => if String.eqb key k then Some v else dict_get key items'
  end.

(** [v[key]] for a string [key]: [KeyError] on a dict without the key,
    [TypeError] on a value that is not a dict. *)
Definition getitem (key : string) (v : json) : result json :=
  match v with
  | JObj items =>
      match dict_get key items with
      | Some x => Ok x
      | None => Raise (KeyError key)
      end
  | _ => Raise TypeError
  end.

(** [v.get(key)]: [None] when a dict has no such key. *)
Definition get_method (key : string) (v : json) : result json :=
  match v with
  | JObj items => Ok (default JNull (dict_get key items))
  | _ => Raise AttributeError
  end.

(** [v.items()] *)
Definition items_method (v : json) : result (list (string * json)) :=
  match v with
  | JObj items => Ok items
  | _ => Raise AttributeError
  end.

(** The elements a [for] loop over [v] visits: those of a list, the keys of a
    dict, the characters of a string; [TypeError] for the other values. *)
Definition iterate (v : json) : result (list json) :=
  match v with
  | JList l => Ok l
  | JObj items => Ok ((λ kv, JStr kv.1) <$> items)
  | JStr s => Ok ((λ c, JStr (String c EmptyString)) <$> list_ascii_of_string s)
  | _ => Raise TypeError
  end.

(** Reading a document value at the type of a dataclass field. *)
Definition as_str (v : json) : result string :=
  match v with JStr s => Ok s | _ => Raise Untyped end.
Definition as_float (v : json) : result float :=
  match v with JFloat x => Ok x | _ => Raise Untyped end.
Definition as_optional_str (v : json) : result (option string) :=
  match v with JNull => Ok None | JStr s => Ok (Some s) | _ => Raise Untyped end.

(** The documents Python can hold: no dict has a key twice. *)
Fixpoint json_wf (v : json) : Prop :=
  match v with
  | JList l => foldr (λ x rest, json_wf x ∧ rest) True l
  | JObj items =>
      NoDup (items.*1) ∧ foldr (λ kv rest, json_wf kv.2 ∧ rest) True items
  | _ => True
  end.

(** [json.dumps(_, indent=2, ensure_ascii=False)] and [json.loads]: text is
    whatever the codec writes. *)
Class JsonCodec (text : Type) : Type := {
  json_dumps : json → text;
  json_loads : text → result json
}.

(** What the code relies on: a document that was written is read back. *)
Class JsonCodecLaws (text : Type) `{JsonCodec text} : Prop :=
  loads_dumps : ∀ v : json, json_wf v → json_loads (json_dumps v) = Ok v.

(** A file system, as [open(path).read()] and [Path.exists()] see it. *)
Record filesystem (text : Type) : Type := {
  path_exists : string → bool;
  read_file : string → result text
}.
Arguments path_exists {text} _ _.
Arguments read_file {text} _ _.

(** ** The mapping store *)

Module SymbolMappingDatabase.

(** [_initialize_mappings]: the curated seed set, one assignment
    [self.mappings[id] = SymbolMapping(...)] after the other. *)
Definition _initialize_mappings (self : store) : store :=
  let lit := Float.lit in
  let self := <[1 := SymbolMapping.make 1 "double right arrow" [
      LaTeXCandidate.make "\implies" (lit 10 1) "logical implication"
        (Some "Standard symbol for logical implication in mathematical logic");
      LaTeXCandidate.make "\Rightarrow" (lit 6 1) "general implication"
        (Some "General double-line right arrow, less specific than \implies");
      LaTeXCandidate.make "\rightarrow" (lit 3 1) "generic arrow or mapping"
        (Some "Generic right arrow, can mean function mapping or general direction")
    ]]> self in
  let self := <[2 := SymbolMapping.make 2 "double left-right arrow" [
      LaTeXCandidate.make "\iff" (lit 10 1) "if and only if"
        (Some "Standard symbol for logical equivalence (if and only if)");
      LaTeXCandidate.make "\Leftrightarrow" (lit 6 1) "general equivalence"
        (Some "General double-line bidirectional arrow");
      LaTeXCandidate.make "\leftrightarrow" (lit 3 1) "generic bidirectional arrow"
        (Some "Generic bidirectional arrow")
    ]]> self in
  let self := <[3 := SymbolMapping.make 3 "right arrow" [
      LaTeXCandidate.make "\rightarrow" (lit 8 1) "function mapping or limit"
        (Some "Commonly used for function mappings f: A → B or limits");
      LaTeXCandidate.make "\to" (lit 7 1) "function mapping (shorthand)"
        (Some "Shorthand for \rightarrow, commonly used in function notation");
      LaTeXCandidate.make "\mapsto" (lit 9 1) "element mapping"
        (Some "Maps to (element-wise), e.g., x ↦ f(x)")
    ]]> self in
  let self := <[4 := SymbolMapping.make 4 "subset or equal" [
      LaTeXCandidate.make "\subseteq" (lit 10 1) "subset or equal"
        (Some "Standard symbol for subset or equal in set theory");
      LaTeXCandidate.make "\subset" (lit 7 1) "proper subset"
        (Some "Proper subset (not equal)");
      LaTeXCandidate.make "\subseteqq" (lit 9 1) "subset or equal (variant)"
        (Some "Variant of \subseteq, less common")
    ]]> self in
  let self := <[5 := SymbolMapping.make 5 "element of" [
      LaTeXCandidate.make "\in" (lit 10 1) "set membership"
        (Some "Standard symbol for set membership (element of)");
      LaTeXCandidate.make "\epsilon" (lit 2 1) "Greek letter epsilon"
        (Some "Greek letter epsilon, visually similar but different meaning")
    ]]> self in
  let self := <[6 := SymbolMapping.make 6 "union" [
      LaTeXCandidate.make "\cup" (lit 10 1) "set union"
        (Some "Standard symbol for set union");
      LaTeXCandidate.make "\bigcup" (lit 9 1) "big union"
        (Some "Large union operator for indexed unions")
    ]]> self in
  let self := <[7 := SymbolMapping.make 7 "intersection" [
      LaTeXCandidate.make "\cap" (lit 10 1) "set intersection"
        (Some "Standard symbol for set intersection");
      LaTeXCandidate.make "\bigcap" (lit 9 1) "big intersection"
        (Some "Large intersection operator for indexed intersections")
    ]]> self in
  let self := <[8 := SymbolMapping.make 8 "less than or equal" [
      LaTeXCandidate.make "\leq" (lit 10 1) "less than or equal"
        (Some "Standard mathematical symbol for less than or equal");
      LaTeXCandidate.make "\leqslant" (lit 8 1) "less than or equal (variant)"
        (Some "Variant of \leq, less common")
    ]]> self in
  let self := <[9 := SymbolMapping.make 9 "greater than or equal" [
      LaTeXCandidate.make "\geq" (lit 10 1) "greater than or equal"
        (Some "Standard mathematical symbol for greater than or equal");
      LaTeXCandidate.make "\geqslant" (lit 8 1) "greater than or equal (variant)"
        (Some "Variant of \geq, less common")
    ]]> self in
  let self := <[10 := SymbolMapping.make 10 "not equal" [
      LaTeXCandidate.make "\neq" (lit 10 1) "not equal"
        (Some "Standard mathematical symbol for not equal");
      LaTeXCandidate.make "\ne" (lit 9 1) "not equal (shorthand)"
        (Some "Shorthand for \neq")
    ]]> self in
  let self := <[11 := SymbolMapping.make 11 "approximately equal" [
      LaTeXCandidate.make "\approx" (lit 10 1) "approximately equal"
        (Some "Standard symbol for approximately equal");
      LaTeXCandidate.make "\simeq" (lit 8 1) "asymptotically equal"
        (Some "Asymptotically equal, used in asymptotic analysis");
      LaTeXCandidate.make "\cong" (lit 7 1) "congruent"
        (Some "Congruent, used in geometry")
    ]]> self in
  let self := <[12 := SymbolMapping.make 12 "for all" [
      LaTeXCandidate.make "\forall" (lit 10 1) "universal quantifier"
        (Some "Universal quantifier (for all) in mathematical logic")
    ]]> self in
  let self := <[13 := SymbolMapping.make 13 "exists" [
      LaTeXCandidate.make "\exists" (lit 10 1) "existential quantifier"
        (Some "Existential quantifier (there exists) in mathematical logic")
    ]]> self in
  let self := <[14 := SymbolMapping.make 14 "multiplication" [
      LaTeXCandidate.make "\times" (lit 10 1) "multiplication or cross product"
        (Some "Standard symbol for multiplication or cross product");
      LaTeXCandidate.make "\cdot" (lit 9 1) "dot product or scalar multiplication"
        (Some "Dot product or scalar multiplication");
      LaTeXCandidate.make "\ast" (lit 5 1) "asterisk multiplication"
        (Some "Asterisk multiplication, less common")
    ]]> self in
  let self := <[15 := SymbolMapping.make 15 "division" [
      LaTeXCandidate.make "\div" (lit 10 1) "division"
        (Some "Standard symbol for division")
    ]]> self in
  let self := <[16 := SymbolMapping.make 16 "plus minus" [
      LaTeXCandidate.make "\pm" (lit 10 1) "plus or minus"
        (Some "Standard symbol for plus or minus");
      LaTeXCandidate.make "\mp" (lit 9 1) "minus or plus"
        (Some "Minus or plus (opposite of \pm)")
    ]]> self in
  let self := <[17 := SymbolMapping.make 17 "equivalent" [
      LaTeXCandidate.make "\equiv" (lit 10 1) "equivalent or congruent"
        (Some "Standard symbol for equivalence or congruence");
      LaTeXCandidate.make "\sim" (lit 7 1) "similar or asymptotically equivalent"
        (Some "Similar or asymptotically equivalent")
    ]]> self in
  let self := <[18 := SymbolMapping.make 18 "integral" [
      LaTeXCandidate.make "\int" (lit 10 1) "integral"
        (Some "Standard symbol for integral");
      LaTeXCandidate.make "\oint" (lit 9 1) "contour integral"
        (Some "Contour integral (closed path integral)");
      LaTeXCandidate.make "\iint" (lit 8 1) "double integral"
        (Some "Double integral")
    ]]> self in
  let self := <[19 := SymbolMapping.make 19 "sum" [
      LaTeXCandidate.make "\sum" (lit 10 1) "summation"
        (Some "Standard symbol for summation");
      LaTeXCandidate.make "\Sigma" (lit 3 1) "Greek letter capital sigma"
        (Some "Greek letter capital sigma, visually similar but different from \sum")
    ]]> self in
  let self := <[20 := SymbolMapping.make 20 "product" [
      LaTeXCandidate.make "\prod" (lit 10 1) "product"
        (Some "Standard symbol for product");
      LaTeXCandidate.make "\Pi" (lit 3 1) "Greek letter capital pi"
        (Some "Greek letter capital pi, visually similar but different from \prod")
    ]]> self in
  self.

(** [SymbolMappingDatabase()] *)
Definition init : store := _initialize_mappings ∅.

Definition get_mapping (self : store) (symbol_class_id : Z) : option SymbolMapping.t :=
  self !! symbol_class_id.

Definition get_ranked_candidates (self : store) (symbol_class_id : Z)
  : list LaTeXCandidate.t :=
  match get_mapping self symbol_class_id with
  | None => []
  | Some mapping => SymbolMapping.get_ranked_candidates mapping
  end.

Definition candidate_to_json (cand : LaTeXCandidate.t) : json :=
  JObj [ ("command", JStr (LaTeXCandidate.command cand));
         ("math_priority", JFloat (LaTeXCandidate.math_priority cand));
         ("context", JStr (LaTeXCandidate.context cand));
         ("description",
           match LaTeXCandidate.description cand with
           | Some d => JStr d
           | None => JNull
           end) ].

Definition mapping_to_json (mapping : SymbolMapping.t) : json :=
  JObj [ ("symbol_class_id", JInt (SymbolMapping.symbol_class_id mapping));
         ("symbol_name", JStr (SymbolMapping.symbol_name mapping));
         ("latex_candidates",
           JList (candidate_to_json <$> SymbolMapping.latex_candidates mapping)) ].

(** The dict [data] of [to_json]. Its keys are the integers [class_id];
    [json.dumps] writes an integer key as the string [str(class_id)], and the
    document has the key in that form. *)
Definition to_json_data (self : store) : json :=
  JObj ((λ '(class_id, mapping), (py_str class_id, mapping_to_json mapping))
          <$> map_to_list self).

Definition candidate_of_json (cand : json) : result LaTeXCandidate.t :=
  command ← getitem "command" cand ≫= as_str;
  math_priority ← getitem "math_priority" cand ≫= as_float;
  context ← getitem "context" cand ≫= as_str;
  description ← get_method "description" cand ≫= as_optional_str;
  Ok (LaTeXCandidate.make command math_priority context description).

(** The body of the loop of [from_json]. *)
Definition from_json_item (mappings : store) (item : string * json) : result store :=
  let class_id_str := item.1 in
  let mapping_data := item.2 in
  class_id ← py_int class_id_str;
  cands ← getitem "latex_candidates" mapping_data ≫= iterate;
  candidates ← rmap candidate_of_json cands;
  symbol_name ← getitem "symbol_name" mapping_data ≫= as_str;
  Ok (<[class_id := SymbolMapping.make class_id symbol_name candidates]> mappings).

(** [from_json] after [json.loads]: [db = cls()], [db.mappings = {}] and the
    loop over [data.items()]. *)
Definition from_json_data (data : json) : result store :=
  items ← items_method data;
  rfold from_json_item ∅ items.

Section Codec.
Context {text : Type} `{JsonCodec text}.

Definition to_json (self : store) : text := json_dumps (to_json_data self).

Definition from_json (json_str : text) : result store :=
  json_loads json_str ≫= from_json_data.

Definition from_json_file (fs : filesystem text) (filepath : string) : result store :=
  read_file fs filepath ≫= from_json.

(** The loop of [load_full_mapping]: existing mappings take precedence. *)
Definition merge (self full_db : store) : store :=
  foldl (λ (self : store) '(class_id, mapping),
           match self !! class_id with
           | None => <[class_id := mapping]> self
           | Some _ => self
           end)
        self (map_to_list full_db).

(** [self.load_full_mapping(filepath)]: the outcome of the call and the
    store it leaves. An exception of [from_json_file] leaves the method
    before the loop. *)
Definition load_full_mapping (fs : filesystem text) (filepath : string) (self : store)
  : result () * store :=
  match from_json_file fs filepath with
  | Raise e => (Raise e, self)
  | Ok full_db => (Ok (), merge self full_db)
  end.

End Codec.

End SymbolMappingDatabase.

(** ** numpy *)

(** An array of one or two dimensions of a floating-point dtype. *)
Inductive ndarray : Type :=
  | Array1 (dtype : DType.t) (a : list float)
  | Array2 (dtype : DType.t) (rows : list (list float)).

Definition dtype_of (a : ndarray) : DType.t :=
  match a with Array1 d _ => d | Array2 d _ => d end.

(** [a.flatten()], as the list of the elements: the rows one after the other.
    A one-dimensional array has its elements already in that form. *)
Definition flatten (a : ndarray) : list float :=
  match a with Array1 _ a => a | Array2 _ rows => concat rows end.

(** The reductions [a.min()] and [a.max()]: a NaN in the array is the
    result; an empty array is a [ValueError]. *)
Definition minimum (x y : float) : float :=
  if Float.is_nan x then x else if Float.is_nan y then y
  else if (y <? x)%flt then y else x.
Definition maximum (x y : float) : float :=
  if Float.is_nan x then x else if Float.is_nan y then y
  else if (y >? x)%flt then y else x.

Definition np_min (a : list float) : result float :=
  match a with
  | [] => Raise ValueError
  | x :: a' => Ok (foldl minimum x a')
  end.
Definition np_max (a : list float) : result float :=
  match a with
  | [] => Raise ValueError
  | x :: a' => Ok (foldl maximum x a')
  end.

(** [np.exp] of an element and [a.sum()], in the dtype of the array, and
    [np.argsort(a)] (the positions of [a] in ascending order of the values;
    the order of equal values is the library's). [weak_scalars] says how the
    library combines a NumPy scalar with a Python float: since NumPy 2 the
    Python float is converted to the dtype of the scalar, which is the dtype
    of the result; before, the result was a float64. *)
Class NumpyOps : Type := {
  np_exp : DType.t → float → float;
  np_sum : DType.t → list float → float;
  np_argsort : list float → list nat;
  weak_scalars : bool
}.

(** The dtype of [x * y] and of [x + y] for a NumPy scalar [x] of dtype [d]
    and a Python float [y], and these operations. *)
Definition scalar_dtype `{NumpyOps} (d : DType.t) : DType.t :=
  if weak_scalars then d else DType.float64.

Definition scalar_mul `{NumpyOps} (d : DType.t) (x y : float) : float :=
  DType.mul (scalar_dtype d) x (DType.cast (scalar_dtype d) y).
Definition scalar_add `{NumpyOps} (d : DType.t) (x y : float) : float :=
  DType.add (scalar_dtype d) x (DType.cast (scalar_dtype d) y).

(** [a[indices]] *)
Definition take_indices (a : list float) (indices : list nat) : result (list float) :=
  rmap (λ i, match a !! i with Some x => Ok x | None => Raise IndexError end) indices.

(** ** The ranker *)

Module RankedCandidate.
Record t : Type := make {
  latex_command : string;
  symbol_class_id : Z;
  vision_confidence : float;
  math_priority : float;
  combined_score : float;
  context : string;
  description : option string
}.

(** [__lt__]: higher [combined_score] comes first. *)
Definition lt (self other : t) : bool :=
  (combined_score self >? combined_score other)%flt.
End RankedCandidate.

Module CandidateRanker.

Record t : Type := make {
  mapping_db : store;
  vision_weight : float;
  math_weight : float
}.

(** [CandidateRanker(mapping_db, vision_weight, math_weight)] *)
Definition init (mapping_db : option store) (vision_weight math_weight : float)
  : result t :=
  let mapping_db :=
    match mapping_db with
    | None => SymbolMappingDatabase.init
    | Some db => db
    end in
  let total_weight := (vision_weight + math_weight)%flt in
  if (Float.abs (total_weight - Float.lit 10 1) >? Float.lit 1 6)%flt
  then Raise ValueError
  else Ok (make mapping_db vision_weight math_weight).

(** The conversions [int(symbol_id)] of an index and [float(x)] of a NumPy
    scalar: the Python float equal to it. *)
Definition int_ (i : Z) : Z := i.
Definition float_ (x : float) : float := x.

(** Lines 101-114 of [rank_candidates]: flatten, normalize, select. *)
Definition top_k_selection `{NumpyOps} (vision_predictions : ndarray) (top_k_symbols : Z)
  : result (list (Z * float)) :=
  let dtype := dtype_of vision_predictions in
  let vision_predictions := flatten vision_predictions in
  lo ← np_min vision_predictions;
  is_logits ← (if (lo <? Float.of_Z 0)%flt then Ok true
               else hi ← np_max vision_predictions; Ok (hi >? Float.lit 10 1)%flt);
  vision_predictions ←
    (if is_logits : bool then
       hi ← np_max vision_predictions;
       let exp_preds := (λ x, np_exp dtype (DType.sub dtype x hi)) <$> vision_predictions in
       let total := np_sum dtype exp_preds in
       Ok ((λ x, DType.div dtype x total) <$> exp_preds)
     else Ok vision_predictions);
  let top_k_indices :=
    reverse (slice_from (- top_k_symbols) (np_argsort vision_predictions)) in
  top_k_confidences ← take_indices vision_predictions top_k_indices;
  Ok (zip (Z.of_nat <$> top_k_indices) top_k_confidences).

(** [rank_candidates(vision_predictions, top_k_symbols,
    top_k_candidates_per_symbol)]. A [confidence] is a scalar of the dtype of
    the vector; the weights and the priorities are Python floats. The score
    of a mapped symbol is stored as the NumPy scalar it is: the record holds
    its value. *)
Definition rank_candidates `{NumpyOps} (self : t) (vision_predictions : ndarray)
    (top_k_symbols top_k_candidates_per_symbol : Z)
  : result (list RankedCandidate.t) :=
  let dtype := dtype_of vision_predictions in
  selected ← top_k_selection vision_predictions top_k_symbols;
  let all_candidates :=
    foldl (λ (all_candidates : list RankedCandidate.t) '(symbol_id, confidence),
      let latex_candidates :=
        SymbolMappingDatabase.get_ranked_candidates (mapping_db self) symbol_id in
      match latex_candidates with
      | [] =>
          all_candidates ++
          [ RankedCandidate.make
              ("\symbol_" +:+ py_str symbol_id)
              (int_ symbol_id)
              (float_ confidence)
              (Float.lit 5 1)
              (float_ (scalar_add dtype
                         (scalar_mul dtype confidence (vision_weight self))
                         (Float.lit 5 1 * math_weight self)%flt))
              "symbol (no mapping available)"
              (Some ("Symbol class " +:+ py_str symbol_id
                     +:+ " - mapping not yet available")) ]
      | _ =>
          foldl (λ all_candidates latex_cand,
            let combined_score :=
              scalar_add dtype
                (scalar_mul dtype confidence (vision_weight self))
                (LaTeXCandidate.math_priority latex_cand * math_weight self)%flt in
            all_candidates ++
            [ RankedCandidate.make
                (LaTeXCandidate.command latex_cand)
                (int_ symbol_id)
                (float_ confidence)
                (LaTeXCandidate.math_priority latex_cand)
                combined_score
                (LaTeXCandidate.context latex_cand)
                (LaTeXCandidate.description latex_cand) ])
            all_candidates
            (slice_to top_k_candidates_per_symbol latex_candidates)
      end) [] selected in
  Ok (list_sort RankedCandidate.lt all_candidates).

(** [rank_candidates_from_top_k(top_k_symbols, top_k_candidates_per_symbol)] *)
Definition rank_candidates_from_top_k (self : t) (top_k_symbols : list (Z * float))
    (top_k_candidates_per_symbol : Z)
  : list RankedCandidate.t :=
  let all_candidates :=
    foldl (λ (all_candidates : list RankedCandidate.t) '(symbol_id, confidence),
      let latex_candidates :=
        SymbolMappingDatabase.get_ranked_candidates (mapping_db self) symbol_id in
      match latex_candidates with
      | [] =>
          all_candidates ++
          [ RankedCandidate.make
              ("\symbol_" +:+ py_str symbol_id)
              symbol_id
              confidence
              (Float.lit 5 1)
              (confidence * vision_weight self + Float.lit 5 1 * math_weight self)%flt
              "symbol (no mapping available)"
              (Some ("Symbol class " +:+ py_str symbol_id
                     +:+ " - mapping not yet available")) ]
      | _ =>
          foldl (λ all_candidates latex_cand,
            let combined_score :=
              (confidence * vision_weight self
               + LaTeXCandidate.math_priority latex_cand * math_weight self)%flt in
            all_candidates ++
            [ RankedCandidate.make
                (LaTeXCandidate.command latex_cand)
                symbol_id
                confidence
                (LaTeXCandidate.math_priority latex_cand)
                combined_score
                (LaTeXCandidate.context latex_cand)
                (LaTeXCandidate.description latex_cand) ])
            all_candidates
            (slice_to top_k_candidates_per_symbol latex_candidates)
      end) [] top_k_symbols in
  list_sort RankedCandidate.lt all_candidates.

End CandidateRanker.

(** ** The engine *)

Module SemanticSuggestionEngine.

(** What [__init__] prints. *)
Inductive line : Type :=
  | Warning_could_not_load (e : exn)
  | Using_default_mappings_only.

Record t (renderer : Type) : Type := make {
  mapping_db : store;
  ranker : CandidateRanker.t;
  renderer_ : option renderer
}.
Arguments make {renderer} _ _ _.
Arguments mapping_db {renderer} _.
Arguments ranker {renderer} _.
Arguments renderer_ {renderer} _.

Section Init.
Context {text : Type} `{JsonCodec text} {renderer : Type}.

(** The store of a new engine and what building it prints: the one that was
    passed or a new one, into which the full mapping file is merged when it
    exists; an exception of the merge is caught and reported. ([Untyped] is
    not an exception: such a file is outside the model.) *)
Definition init_mapping_db (fs : filesystem text) (full_mapping_path : string)
    (mapping_db : option store) (load_full_mapping : bool)
  : result store * list line :=
  match mapping_db with
  | Some mapping_db => (Ok mapping_db, [])
  | None =>
      let mapping_db := SymbolMappingDatabase.init in
      if load_full_mapping && path_exists fs full_mapping_path then
        match SymbolMappingDatabase.load_full_mapping fs full_mapping_path mapping_db with
        | (Ok _, mapping_db) => (Ok mapping_db, [])
        | (Raise Untyped, _) => (Raise Untyped, [])
        | (Raise e, mapping_db) =>
            (Ok mapping_db, [Warning_could_not_load e; Using_default_mappings_only])
        end
      else (Ok mapping_db, [])
  end.

(** [SemanticSuggestionEngine(mapping_db, ranker, renderer, load_full_mapping)] *)
Definition init (fs : filesystem text) (full_mapping_path : string)
    (mapping_db : option store) (ranker : option CandidateRanker.t)
    (renderer_ : option renderer) (load_full_mapping : bool)
  : result (t renderer) * list line :=
  match init_mapping_db fs full_mapping_path mapping_db load_full_mapping with
  | (Raise e, out) => (Raise e, out)
  | (Ok mapping_db, out) =>
      let ranker :=
        match ranker with
        | Some ranker => Ok ranker
        | None =>
            CandidateRanker.init (Some mapping_db) (Float.lit 6 1) (Float.lit 4 1)
        end in
      (ranker ← ranker; Ok (make mapping_db ranker renderer_), out)
  end.

End Init.

End SemanticSuggestionEngine.

(** ** Notions of the statements *)

Import SymbolMappingDatabase.
Import CandidateRanker.

(** Descending order of a float key, and the elements whose key compares
    equal to [p]. *)
Definition descending {A} (key : A → float) (a b : A) : Prop :=
  (key b <=? key a)%flt = true.
Definition tied {A} (key : A → float) (p : float) (a : A) : Prop :=
  Float.eqb (key a) p = true.

#[global] Instance tied_dec {A} (key : A → float) p a : Decision (tied key p a).
Proof. unfold tied. apply _. Defined.

(** The mapping [from_json] builds for the record of [mapping] under the key
    [class_id]. *)
Definition rekey (class_id : Z) (mapping : SymbolMapping.t) : SymbolMapping.t :=
  SymbolMapping.make class_id (SymbolMapping.symbol_name mapping)
    (SymbolMapping.latex_candidates mapping).

(** No stored priority is a NaN. *)
Definition no_nan_priority (candidates : list LaTeXCandidate.t) : bool :=
  forallb (λ c, negb (Float.is_nan (LaTeXCandidate.math_priority c))) candidates.

(** What a selected symbol contributes to [all_candidates]: the placeholder
    when the store has no candidate for it, else its ranked candidates, cut
    to the first [top_k_candidates_per_symbol], each with its score. *)
Definition placeholder (self : CandidateRanker.t) (symbol_id : Z) (confidence : float)
  : RankedCandidate.t :=
  RankedCandidate.make
    ("\symbol_" +:+ py_str symbol_id) symbol_id confidence (Float.lit 5 1)
    (confidence * vision_weight self + Float.lit 5 1 * math_weight self)%flt
    "symbol (no mapping available)"
    (Some ("Symbol class " +:+ py_str symbol_id +:+ " - mapping not yet available")).

Definition scored (self : CandidateRanker.t) (symbol_id : Z) (confidence : float)
    (latex_cand : LaTeXCandidate.t) : RankedCandidate.t :=
  RankedCandidate.make
    (LaTeXCandidate.command latex_cand) symbol_id confidence
    (LaTeXCandidate.math_priority latex_cand)
    (confidence * vision_weight self
     + LaTeXCandidate.math_priority latex_cand * math_weight self)%flt
    (LaTeXCandidate.context latex_cand) (LaTeXCandidate.description latex_cand).

Definition suggestions_for (self : CandidateRanker.t)
    (top_k_candidates_per_symbol : Z) (selected : Z * float) : list RankedCandidate.t :=
  match get_ranked_candidates (mapping_db self) selected.1 with
  | [] => [placeholder self selected.1 selected.2]
  | latex_candidates =>
      scored self selected.1 selected.2
        <$> slice_to top_k_candidates_per_symbol latex_candidates
  end.

(** The same for the vector entry point on a vector of dtype [dtype]: the
    score is computed in the arithmetic of a scalar of that dtype. *)
Definition placeholder_in `{NumpyOps} (dtype : DType.t) (self : CandidateRanker.t)
    (symbol_id : Z) (confidence : float) : RankedCandidate.t :=
  RankedCandidate.make
    ("\symbol_" +:+ py_str symbol_id) symbol_id confidence (Float.lit 5 1)
    (scalar_add dtype (scalar_mul dtype confidence (vision_weight self))
       (Float.lit 5 1 * math_weight self)%flt)
    "symbol (no mapping available)"
    (Some ("Symbol class " +:+ py_str symbol_id +:+ " - mapping not yet available")).

Definition scored_in `{NumpyOps} (dtype : DType.t) (self : CandidateRanker.t)
    (symbol_id : Z) (confidence : float) (latex_cand : LaTeXCandidate.t)
  : RankedCandidate.t :=
  RankedCandidate.make
    (LaTeXCandidate.command latex_cand) symbol_id confidence
    (LaTeXCandidate.math_priority latex_cand)
    (scalar_add dtype (scalar_mul dtype confidence (vision_weight self))
       (LaTeXCandidate.math_priority latex_cand * math_weight self)%flt)
    (LaTeXCandidate.context latex_cand) (LaTeXCandidate.description latex_cand).

Definition suggestions_for_in `{NumpyOps} (dtype : DType.t) (self : CandidateRanker.t)
    (top_k_candidates_per_symbol : Z) (selected : Z * float) : list RankedCandidate.t :=
  match get_ranked_candidates (mapping_db self) selected.1 with
  | [] => [placeholder_in dtype self selected.1 selected.2]
  | latex_candidates =>
      scored_in dtype self selected.1 selected.2
        <$> slice_to top_k_candidates_per_symbol latex_candidates
  end.

(** The score of the formula, computed in binary64 and in the arithmetic of
    a scalar of dtype [dtype]. *)
Definition formula_score (vision_weight math_weight confidence priority : float) : float :=
  (vision_weight * confidence + math_weight * priority)%flt.



(** The value of a decimal numeral read from the left with an accumulator,
    and the strings without white space. *)
Fixpoint uint_value (acc : Z) (u : Decimal.uint) : Z :=
  match u with
  | Decimal.Nil => acc
  | Decimal.D0 u => uint_value (10 * acc + 0) u
  | Decimal.D1 u => uint_value (10 * acc + 1) u
  | Decimal.D2 u => uint_value (10 * acc + 2) u
  | Decimal.D3 u => uint_value (10 * acc + 3) u
  | Decimal.D4 u => uint_value (10 * acc + 4) u
  | Decimal.D5 u => uint_value (10 * acc + 5) u
  | Decimal.D6 u => uint_value (10 * acc + 6) u
  | Decimal.D7 u => uint_value (10 * acc + 7) u
  | Decimal.D8 u => uint_value (10 * acc + 8) u
  | Decimal.D9 u => uint_value (10 * acc + 9) u
  end.

Fixpoint no_space (s : string) : bool :=
  match s with
  | EmptyString => true
  | String c r => negb (is_space c) && no_space r
  end.

(** ** Sample data *)

(** A codec and a file system to run the code on: a text is a document, or
    it is not JSON at all; a file system has one file. *)
#[local] Instance sample_codec : JsonCodec (option json) := {|
  json_dumps := Some;
  json_loads := λ t, match t with Some v => Ok v | None => Raise JSONDecodeError end
|}.

Definition one_file (path : string) (content : result (option json))
  : filesystem (option json) := {|
  path_exists := λ p, String.eqb p path;
  read_file := λ p, if String.eqb p path then content else Raise OSError
|}.

(** The merges of a sequence of files, each read in the file system of its
    time, whatever the outcome of each call. *)
Definition load_all {text : Type} `{JsonCodec text}
    (sources : list (filesystem text * string)) (self : store) : store :=
  foldl (λ self source, (load_full_mapping source.1 source.2 self).2) self sources.

(** A serialized record whose key is 7 and whose inner field is 99. *)
Definition mismatched_text : option json :=
  Some (JObj [ ("7", JObj [ ("symbol_class_id", JInt 99);
                            ("symbol_name", JStr "seven");
                            ("latex_candidates", JList []) ]) ]).

(** A generated collection that has another mapping for id 1 and a mapping
    for id 300. *)
Definition generated_text : option json :=
  Some (JObj [ ("1", JObj [ ("symbol_class_id", JInt 1);
                            ("symbol_name", JStr "generated");
                            ("latex_candidates", JList []) ]);
               ("300", JObj [ ("symbol_class_id", JInt 300);
                              ("symbol_name", JStr "alpha");
                              ("latex_candidates",
                                JList [ JObj [ ("command", JStr "\alpha");
                                               ("math_priority", JFloat (Float.lit 8 1));
                                               ("context", JStr "Greek letter");
                                               ("description", JNull) ] ]) ]) ]).

(** A NumPy to run the vector entry point on probability vectors: a sum from
    left to right, a stable argsort and the scalars of NumPy 2. (The
    exponential is a constant; no probability vector reaches it.) *)
#[local] Instance sample_numpy : NumpyOps := {|
  np_exp := λ _ _, Float.lit 10 1;
  np_sum := λ dtype, foldl (DType.add dtype) (Float.of_Z 0);
  np_argsort := λ a, (list_sort (λ p q, (p.2 <? q.2)%flt) (imap pair a)).*1;
  weak_scalars := true
|}.

(** The ranker with the default weights on the seed store. *)
Definition default_ranker : CandidateRanker.t :=
  CandidateRanker.make SymbolMappingDatabase.init (Float.lit 6 1) (Float.lit 4 1).

(** Probabilities for the symbols 0 to 4: symbol 1 at 0.7, symbol 4 at 0.2. *)
Definition sample_predictions : ndarray :=
  Array1 DType.float64
    [ Float.lit 5 2; Float.lit 7 1; Float.lit 3 2; Float.lit 2 2; Float.lit 2 1 ].

(** A float32 vector, as a vision model returns it: symbol 0 at 0.3 and
    symbol 1 at 0.7, each the float32 nearest to it. *)
Definition float32_predictions : ndarray :=
  Array1 DType.float32
    [ DType.cast DType.float32 (Float.lit 3 1);
      DType.cast DType.float32 (Float.lit 7 1) ].

(** ** Files, the facade and the generator *)

(** [open(filepath, 'w')] followed by [f.write(content)]: the file system
    after the write, or the exception. *)
Class FileWriter (text : Type) : Type :=
  write_file : filesystem text → string → text → result (filesystem text).

(** A file that was written exists and holds what was written. *)
Class FileWriterLaws (text : Type) `{FileWriter text} : Prop :=
  write_then_read : ∀ fs filepath content fs',
    write_file fs filepath content = Ok fs' →
    path_exists fs' filepath = true ∧ read_file fs' filepath = Ok content.

(** [self.save_to_file(filepath)] *)
Definition save_to_file {text : Type} `{JsonCodec text} `{FileWriter text}
    (self : store) (filepath : string) (fs : filesystem text)
  : result (filesystem text) :=
  write_file fs filepath (to_json self).

(** The store has each mapping under its own [symbol_class_id]. *)
Definition keyed (self : store) : Prop :=
  map_Forall (λ id mapping, SymbolMapping.symbol_class_id mapping = id) self.

(** [create_default_ranker()], [create_vision_heavy_ranker()] and
    [create_math_heavy_ranker()] *)
Definition create_default_ranker : result CandidateRanker.t :=
  CandidateRanker.init None (Float.lit 6 1) (Float.lit 4 1).
Definition create_vision_heavy_ranker : result CandidateRanker.t :=
  CandidateRanker.init None (Float.lit 8 1) (Float.lit 2 1).
Definition create_math_heavy_ranker : result CandidateRanker.t :=
  CandidateRanker.init None (Float.lit 4 1) (Float.lit 6 1).


(** [engine.suggest_from_top_k_symbols(top_k_symbols, top_k)] *)
Definition suggest_from_top_k_symbols {renderer : Type}
    (self : SemanticSuggestionEngine.t renderer) (top_k_symbols : list (Z * float))
    (top_k : Z) : list RankedCandidate.t :=
  let candidates :=
    rank_candidates_from_top_k (SemanticSuggestionEngine.ranker self) top_k_symbols 3 in
  slice_to top_k candidates.

(** [create_suggestion_engine(vision_weight, math_weight, load_full_mapping)]:
    the engine or the exception, and what was printed. The merge is
    attempted first, then the ranker is constructed on the resulting store,
    then the engine, which is given the store and so does not merge again. *)
Definition create_suggestion_engine {text : Type} `{JsonCodec text} {renderer : Type}
    (fs : filesystem text) (full_mapping_path : string)
    (vision_weight math_weight : float) (load_full_mapping : bool)
  : result (SemanticSuggestionEngine.t renderer) * list SemanticSuggestionEngine.line :=
  let mapping_db := SymbolMappingDatabase.init in
  let merged :=
    if load_full_mapping && path_exists fs full_mapping_path then
      match SymbolMappingDatabase.load_full_mapping fs full_mapping_path mapping_db with
      | (Ok _, mapping_db) => (Ok mapping_db, [])
      | (Raise Untyped, _) => (Raise Untyped, [])
      | (Raise e, mapping_db) =>
          (Ok mapping_db, [SemanticSuggestionEngine.Warning_could_not_load e])
      end
    else (Ok mapping_db, []) in
  match merged with
  | (Raise e, out) => (Raise e, out)
  | (Ok mapping_db, out) =>
      match CandidateRanker.init (Some mapping_db) vision_weight math_weight with
      | Raise e => (Raise e, out)
      | Ok ranker =>
          let '(engine, out') :=
            SemanticSuggestionEngine.init fs full_mapping_path
              (Some mapping_db) (Some ranker) None true in
          (engine, out ++ out')
      end
  end.

(** Lines 105-110 of [rank_candidates]: the softmax of a vector that has a
    value below 0 or above 1, the vector itself otherwise. *)
Definition normalize `{NumpyOps} (dtype : DType.t) (vision_predictions : list float)
  : result (list float) :=
  lo ← np_min vision_predictions;
  is_logits ← (if (lo <? Float.of_Z 0)%flt then Ok true
               else hi ← np_max vision_predictions; Ok (hi >? Float.lit 10 1)%flt);
  if is_logits : bool then
    hi ← np_max vision_predictions;
    let exp_preds := (λ x, np_exp dtype (DType.sub dtype x hi)) <$> vision_predictions in
    let total := np_sum dtype exp_preds in
    Ok ((λ x, DType.div dtype x total) <$> exp_preds)
  else Ok vision_predictions.

(** What the code relies on of [np.argsort]: it returns the positions of the
    array, each once, and in ascending order of their values when no value
    is a NaN. *)
Class NumpyLaws `{NumpyOps} : Prop := {
  argsort_positions : ∀ a : list float, np_argsort a ≡ₚ seq 0 (length a);
  argsort_ascending : ∀ a : list float,
    Forall (λ x, Float.is_nan x = false) a →
    StronglySorted
      (λ i j, ∀ x y, a !! i = Some x → a !! j = Some y → (x <=? y)%flt = true)
      (np_argsort a)
}.

(** Strings. [s.startswith(prefix)] is [String.prefix]; [s[1:]]; and
    [s.replace(old, new)], which replaces the occurrences of [old] from the
    left, resuming after each one ([skip] counts the characters of an
    occurrence still to pass); an empty [old] occurs before every character
    and at the end. *)
Definition drop_first (s : string) : string :=
  match s with
  | String _ r => r
  | EmptyString => EmptyString
  end.

Fixpoint replace_from (old new : string) (skip : nat) (s : string) : string :=
  match s with
  | EmptyString => EmptyString
  | String c r =>
      match skip with
      | S n => replace_from old new n r
      | O =>
          if String.prefix old s
          then new +:+ replace_from old new (String.length old - 1) r
          else String c (replace_from old new 0 r)
      end
  end.

Fixpoint intersperse (new : string) (s : string) : string :=
  match s with
  | EmptyString => new
  | String c r => new +:+ String c (intersperse new r)
  end.

Definition str_replace (old new s : string) : string :=
  match old with
  | EmptyString => intersperse new s
  | _ => replace_from old new 0 s
  end.

(** [str.isalpha], [str.isupper] and [str.isdigit]: the character classes
    are those of the interpreter's Unicode tables. *)
Class StrPredicates : Type := {
  isalpha : string → bool;
  isupper : string → bool;
  isdigit : string → bool
}.

(** [generate_symbol_name(latex_command, symbol_id)] *)
Definition generate_symbol_name (latex_command : string) (symbol_id : Z) : string :=
  if String.prefix "\" latex_command then
    let name := drop_first latex_command in
    let name := str_replace "}" "" (str_replace "mathcal{" "" name) in
    let name := str_replace "}" "" (str_replace "mathbb{" "" name) in
    let name := str_replace "}" "" (str_replace "mathfrak{" "" name) in
    let name := str_replace "}" "" (str_replace "mathscr{" "" name) in
    let name := str_replace "}" "" (str_replace "mathds{" "" name) in
    name
  else latex_command.

(** [create_basic_mapping(symbol_id, latex_command)] *)
Definition create_basic_mapping `{StrPredicates} (symbol_id : Z) (latex_command : string)
  : SymbolMapping.t :=
  let symbol_name := generate_symbol_name latex_command symbol_id in
  let context :=
    if String.prefix "\" latex_command then "LaTeX command: " +:+ latex_command
    else if isalpha latex_command then
      if isupper latex_command then "capital letter" else "lowercase letter"
    else if isdigit latex_command then "digit"
    else "symbol" in
  SymbolMapping.make symbol_id symbol_name
    [ LaTeXCandidate.make latex_command (Float.lit 10 1) context
        (Some ("Primary LaTeX representation for " +:+ symbol_name)) ].

(** A row of [csv.DictReader]: a value per field name, [None] for a field
    the line is too short to have. The reader yields the rows one at a time;
    an exception it raises ends the iteration. *)
Definition csv_row : Type := list (string * option string).

Class CsvReader (text : Type) : Type :=
  DictReader : text → list (result csv_row).

Fixpoint row_getitem (key : string) (row : csv_row) : result (option string) :=
  match row with
  | [] => Raise (KeyError key)
  | (k, v) :: row' => if String.eqb key k then Ok v else row_getitem key row'
  end.

(** The body of the loop of [load_symbols_csv]. ([int(None)] is a
    [TypeError]; a [latex] that is [None] would be stored as such.) *)
Definition load_symbols_row (symbols : gmap Z string) (row : result csv_row)
  : result (gmap Z string) :=
  row ← row;
  field ← row_getitem "symbol_id" row;
  symbol_id ← match field with Some s => py_int s | None => Raise TypeError end;
  field ← row_getitem "latex" row;
  latex ← match field with Some s => Ok s | None => Raise Untyped end;
  Ok (<[symbol_id := latex]> symbols).

(** [load_symbols_csv(csv_path)] *)
Definition load_symbols_csv {text : Type} `{CsvReader text}
    (fs : filesystem text) (csv_path : string) : result (gmap Z string) :=
  f ← read_file fs csv_path;
  rfold load_symbols_row ∅ (DictReader f).

(** What [generate_full_database] prints. *)
Inductive report_line : Type :=
  | Generated_mappings_for (n : nat)
  | Total_symbols_in_database (n : nat)
  | Manually_curated_mappings (n : nat)
  | Auto_generated_mappings (n : nat)
  | Complete_database_saved_to (output_path : string).

(** The loop of [generate_full_database]: the database and
    [missing_count]. *)
Definition add_missing `{StrPredicates} (existing_ids : gset Z)
    (all_symbols : gmap Z string) (full_db : store) : store * nat :=
  foldl (λ (state : store * nat) '(symbol_id, latex_command),
           if decide (symbol_id ∈ existing_ids) then state
           else (<[symbol_id := create_basic_mapping symbol_id latex_command]> state.1,
                 S state.2))
        (full_db, 0%nat) (map_to_list all_symbols).

(** [generate_full_database(symbols_csv_path, existing_db, output_path)]: the
    database it returns and the file system it leaves, or the exception, and
    what was printed. *)
Definition generate_full_database {text : Type} `{JsonCodec text} `{FileWriter text}
    `{CsvReader text} `{StrPredicates}
    (fs : filesystem text) (symbols_csv_path : string) (existing_db : store)
    (output_path : string)
  : result (store * filesystem text) * list report_line :=
  match load_symbols_csv fs symbols_csv_path with
  | Raise e => (Raise e, [])
  | Ok all_symbols =>
      let existing_ids : gset Z := dom existing_db in
      let full_db := existing_db in
      let '(full_db, missing_count) := add_missing existing_ids all_symbols full_db in
      let out := [ Generated_mappings_for missing_count;
                   Total_symbols_in_database (size full_db);
                   Manually_curated_mappings (size existing_ids);
                   Auto_generated_mappings missing_count ] in
      match save_to_file full_db output_path fs with
      | Raise e => (Raise e, out)
      | Ok fs' => (Ok (full_db, fs'), out ++ [Complete_database_saved_to output_path])
      end
  end.

(** Sample instances: a file system in which every write succeeds, a reader
    of texts that are the rows already, and the character classes of ASCII
    for strings of one character. *)
#[local] Instance sample_writer {text : Type} : FileWriter text :=
  λ fs filepath content, Ok {|
    path_exists := λ p, String.eqb p filepath || path_exists fs p;
    read_file := λ p, if String.eqb p filepath then Ok content else read_file fs p
  |}.

Definition sample_rows : list (result csv_row) :=
  [ Ok [("symbol_id", Some "1"); ("latex", Some "\Rightarrow")];
    Ok [("symbol_id", Some "31"); ("latex", Some "A")];
    Ok [("symbol_id", Some "300"); ("latex", Some "\mathcal{L}")] ].

Definition in_range (lo hi : N) (s : string) : bool :=
  match s with
  | String c EmptyString => ((lo <=? N_of_ascii c) && (N_of_ascii c <=? hi))%N
  | _ => false
  end.

#[local] Instance sample_predicates : StrPredicates := {|
  isalpha := λ s, in_range 65 90 s || in_range 97 122 s;
  isupper := in_range 65 90;
  isdigit := in_range 48 57
|}.

(** Two records for the symbol 1: the keys "1" and "01". *)
Definition record_named (name : string) : json :=
  JObj [ ("symbol_name", JStr name); ("latex_candidates", JList []) ].

(** No score of a list of suggestions is a NaN. *)
Definition no_nan_score (suggestions : list RankedCandidate.t) : bool :=
  forallb (λ rc, negb (Float.is_nan (RankedCandidate.combined_score rc))) suggestions.

(** The ranker [self] after its store, which it shares, was changed to
    [mapping_db]. *)
Definition with_store (self : CandidateRanker.t) (mapping_db : store) : CandidateRanker.t :=
  CandidateRanker.make mapping_db (vision_weight self) (math_weight self).

(** A selection of an unmapped and of a mapped symbol. *)
Definition sample_pairs : list (Z * float) := [(77, Float.lit 3 1); (1, Float.lit 85 2)].

(** A ranker on a store whose symbol 5 has a mapping without candidates. *)
Definition bare_ranker : CandidateRanker.t :=
  CandidateRanker.make {[ 5 := SymbolMapping.make 5 "bare" [] ]}
    (Float.lit 6 1) (Float.lit 4 1).

(** The value of a position of a vector (a NaN stands for a position the
    vector does not have). *)
Definition value_at (w : list float) (i : nat) : float :=
  match w !! i with Some x => x | None => S754_nan end.

(** Every value of the vector lies between 0 and 1. *)
Definition is_probabilities (v : list float) : bool :=
  forallb (λ x, (Float.of_Z 0 <=? x)%flt && (x <=? Float.lit 10 1)%flt) v.

(** The elements of [sample_predictions]. *)
Definition sample_vector : list float :=
  [ Float.lit 5 2; Float.lit 7 1; Float.lit 3 2; Float.lit 2 2; Float.lit 2 1 ].

(** An engine on the seed store with the default ranker and no renderer. *)
Definition sample_engine : SemanticSuggestionEngine.t unit :=
  SemanticSuggestionEngine.make SymbolMappingDatabase.init default_ranker None.

(** The character [c] occurs in [s]. *)
Fixpoint occurs (c : ascii) (s : string) : bool :=
  match s with
  | EmptyString => false
  | String d r => Ascii.eqb c d || occurs c r
  end.

(** The font commands whose argument [generate_symbol_name] extracts. *)
Definition font_commands : list string :=
  [ "mathcal"; "mathbb"; "mathfrak"; "mathscr"; "mathds" ].

(** What the loop of [load_symbols_csv] reads of a row: the id and the
    command, or the exception. *)
Definition row_entry (row : result csv_row) : result (Z * string) :=
  row ← row;
  field ← row_getitem "symbol_id" row;
  symbol_id ← match field with Some s => py_int s | None => Raise TypeError end;
  field ← row_getitem "latex" row;
  latex ← match field with Some s => Ok s | None => Raise Untyped end;
  Ok (symbol_id, latex).

(** A reader that finds the sample rows in every text, and one that finds
    them followed by a row without the column [latex]. *)
#[local] Instance sample_reader {text : Type} : CsvReader text := λ _, sample_rows.

Definition short_reader {text : Type} : CsvReader text :=
  λ _, sample_rows ++ [Ok [("symbol_id", Some "7")]; Ok [("symbol_id", Some "x")]].

Definition sample_symbols : list (Z * string) :=
  [ (1, "\Rightarrow"); (31, "A"); (300, "\mathcal{L}") ].

(** * Properties *)

(** ** Floats *)

Ltac compare_cases :=
  repeat match goal with
    | |- context [Pos.compare_cont Eq ?a ?b] =>
        change (Pos.compare_cont Eq a b) with (Pos.compare a b)
    | |- context [Z.compare ?a ?b] => destruct (Z.compare_spec a b); simpl
    | |- context [Pos.compare ?a ?b] => destruct (Pos.compare_spec a b); simpl
    end.

(** The literals of the source denote the binary64 numbers Python reads them
    as (mantissa and exponent as [float.hex] gives them). *)
Lemma float_literals :
  Float.lit 6 1 = S754_finite false 5404319552844595 (-53)
  ∧ Float.lit 4 1 = S754_finite false 7205759403792794 (-54)
  ∧ Float.lit 5 1 = S754_finite false 4503599627370496 (-53)
  ∧ Float.lit 10 1 = S754_finite false 4503599627370496 (-52)
  ∧ Float.lit 1 6 = S754_finite false 4722366482869645 (-72)
  ∧ Float.lit 85 2 = S754_finite false 7656119366529843 (-53)
  ∧ Float.lit 91 2 = S754_finite false 8196551321814303 (-53)
  ∧ Float.lit 3 1 = S754_finite false 5404319552844595 (-54)
  ∧ Float.lit 38 2 = S754_finite false 6845471433603154 (-54).
Proof. repeat split; reflexivity. Qed.

Lemma float_mul_comm (x y : float) : (x * y)%flt = (y * x)%flt.
Proof.
  unfold Float.mul, SFmul.
  destruct x as [sx|sx| |sx mx ex], y as [sy|sy| |sy my ey];
    rewrite ?(xorb_comm sx sy); try reflexivity.
  by rewrite Pos.mul_comm, Z.add_comm.
Qed.

Lemma float_compare_nan (x y : float) :
  SFcompare x y = None ↔ Float.is_nan x = true ∨ Float.is_nan y = true.
Proof.
  destruct x as [[]|[]| |[] ? ?], y as [[]|[]| |[] ? ?]; simpl;
    intuition congruence.
Qed.

Lemma float_compare_antisym (x y : float) :
  SFcompare y x = CompOpp <$> SFcompare x y.
Proof.
  destruct x as [[]|[]| |[] mx ex], y as [[]|[]| |[] my ey]; simpl; try reflexivity;
    compare_cases; try reflexivity; lia.
Qed.

(** Without a NaN, [x > y] is false exactly when [x <= y]. *)
Lemma float_gtb_false (x y : float) :
  Float.is_nan x = false → Float.is_nan y = false →
  (x >? y)%flt = false ↔ (x <=? y)%flt = true.
Proof.
  intros Hx Hy. unfold Float.gtb, Float.leb, SFltb, SFleb.
  rewrite (float_compare_antisym x y).
  destruct (SFcompare x y) as [[]|] eqn:E; simpl; try (split; congruence).
  apply float_compare_nan in E. destruct E; congruence.
Qed.

Lemma float_leb_total (x y : float) :
  Float.is_nan x = false → Float.is_nan y = false →
  (y <? x)%flt = false → (x <=? y)%flt = true.
Proof. intros Hx Hy. by apply float_gtb_false. Qed.

Lemma float_ltb_leb (x y : float) : (x <? y)%flt = true → (x <=? y)%flt = true.
Proof.
  unfold Float.ltb, Float.leb, SFltb, SFleb. by destruct (SFcompare x y) as [[]|].
Qed.

Lemma float_leb_trans (x y z : float) :
  (x <=? y)%flt = true → (y <=? z)%flt = true → (x <=? z)%flt = true.
Proof.
  unfold Float.leb, SFleb.
  destruct x as [[]|[]| |[] mx ex], y as [[]|[]| |[] my ey], z as [[]|[]| |[] mz ez];
    simpl; try done; compare_cases; try done; lia.
Qed.

(** Two floats that compare equal to a third are not strictly ordered. *)
Lemma float_tie_not_ltb (x y p : float) :
  Float.eqb x p = true → Float.eqb y p = true → (y <? x)%flt = false.
Proof.
  unfold Float.eqb, Float.ltb, SFeqb, SFltb.
  destruct x as [[]|[]| |[] mx ex], y as [[]|[]| |[] my ey], p as [[]|[]| |[] mp ep];
    simpl; try done; compare_cases; try done; lia.
Qed.

(** Rounding a non-negative integer mantissa never yields a NaN. *)
Lemma shr_1_nonneg (mrs : shr_record) : 0 ≤ shr_m mrs → 0 ≤ shr_m (shr_1 mrs).
Proof. destruct mrs as [[|[]|[]] r s]; simpl; lia. Qed.

Lemma iter_shr_1_nonneg (p : positive) (mrs : shr_record) :
  0 ≤ shr_m mrs → 0 ≤ shr_m (SpecFloat.iter_pos shr_1 p mrs).
Proof.
  revert mrs. induction p as [p IH|p IH|]; intros mrs Hm; simpl;
    auto using shr_1_nonneg.
Qed.

Lemma shr_fexp_nonneg (m e : Z) (l : location) :
  0 ≤ m → 0 ≤ shr_m (shr_fexp Float.prec Float.emax m e l).1.
Proof.
  intros Hm. unfold shr_fexp, shr.
  assert (0 ≤ shr_m (shr_record_of_loc m l)) by (by destruct l as [|[]]).
  destruct (_ - e); simpl; auto using iter_shr_1_nonneg.
Qed.

Lemma binary_round_aux_not_nan (sx : bool) (m e : Z) (l : location) :
  0 ≤ m → Float.is_nan (binary_round_aux Float.prec Float.emax sx m e l) = false.
Proof.
  intros Hm. unfold binary_round_aux.
  pose proof (shr_fexp_nonneg m e l Hm) as H1.
  destruct (shr_fexp _ _ m e l) as [mrs' e']. simpl in H1.
  set (m' := round_nearest_even _ _).
  assert (0 ≤ m') as Hm'.
  { unfold m', round_nearest_even.
    destruct (loc_of_shr_record mrs') as [|[]]; try lia.
    destruct (Z.even _); lia. }
  pose proof (shr_fexp_nonneg m' e' loc_Exact Hm') as H2.
  destruct (shr_fexp _ _ m' e' loc_Exact) as [mrs'' e'']. simpl in H2.
  destruct (shr_m mrs'') as [|p|p]; try lia; try done.
  by destruct (_ <=? _).
Qed.

Lemma binary_normalize_not_nan (m e : Z) (szero : bool) :
  Float.is_nan (binary_normalize Float.prec Float.emax m e szero) = false.
Proof.
  unfold binary_normalize, binary_round.
  destruct m; try done;
    destruct (shl_align _ _ _); by apply binary_round_aux_not_nan.
Qed.

(** [abs (t - 1.0)] is a NaN only when [t] is. *)
Lemma float_abs_sub_one_nan (t : float) :
  Float.is_nan (Float.abs (t - Float.lit 10 1)%flt) = Float.is_nan t.
Proof.
  replace (Float.lit 10 1) with (S754_finite false 4503599627370496 (-52))
    by (by vm_compute).
  destruct t as [[]|[]| |s m e]; try done.
  unfold Float.sub, SFsub.
  pose proof (binary_normalize_not_nan
    (cond_Zopp s (Z.pos (shl_align m e (Z.min e (-52))).1)
     - cond_Zopp false (Z.pos (shl_align 4503599627370496 (-52) (Z.min e (-52))).1))
    (Z.min e (-52)) false) as Hn.
  by destruct (binary_normalize _ _ _ _ _).
Qed.

(** ** Integers and their decimal text *)

Lemma strip_no_space (s : string) : no_space s = true → strip s = s.
Proof.
  intros Hs. unfold strip.
  assert (lstrip s = s) as ->.
  { destruct s as [|c r]; [done|]. simpl in *. by destruct (is_space c). }
  induction s as [|c r IH]; [done|]. simpl in *.
  apply andb_prop in Hs as [Hc Hr]. rewrite (IH Hr).
  destruct r; [|done]. by destruct (is_space c).
Qed.

Lemma no_space_string_of_uint (u : Decimal.uint) :
  no_space (NilEmpty.string_of_uint u) = true.
Proof. induction u; simpl; auto. Qed.

Lemma digits_acc_string_of_uint (u : Decimal.uint) (acc : Z) :
  digits_acc acc (NilEmpty.string_of_uint u) = Some (uint_value acc u).
Proof. revert acc. induction u; intros acc; simpl; auto. Qed.

Lemma uint_value_pos (u : Decimal.uint) (acc : positive) :
  uint_value (Z.pos acc) u = Z.pos (Pos.of_uint_acc u acc).
Proof.
  revert acc. induction u; intros acc; simpl; [done|..];
    rewrite <- IHu; f_equal; lia.
Qed.

Lemma uint_value_0 (u : Decimal.uint) : uint_value 0 u = Z.of_N (Pos.of_uint u).
Proof. induction u; simpl; [done|done|..]; apply (uint_value_pos u). Qed.

Lemma parse_digits_to_uint (p : positive) :
  parse_digits (NilEmpty.string_of_uint (Pos.to_uint p)) = Some (Z.pos p).
Proof.
  pose proof (DecimalPos.Unsigned.to_uint_nonnil p) as Hnil.
  pose proof (DecimalPos.Unsigned.of_to p) as Hp.
  pose proof (digits_acc_string_of_uint (Pos.to_uint p) 0) as Hd.
  rewrite uint_value_0, Hp in Hd.
  destruct (Pos.to_uint p); done.
Qed.

(** [int(str(n)) == n] *)
Lemma py_int_py_str (n : Z) : py_int (py_str n) = Ok n.
Proof.
  unfold py_int, py_str.
  destruct n as [|p|p]; [done|..]; simpl.
  - pose proof (DecimalPos.Unsigned.to_uint_nonnil p) as Hnil.
    pose proof (parse_digits_to_uint p) as Hp.
    pose proof (no_space_string_of_uint (Pos.to_uint p)) as Hs.
    unfold NilZero.string_of_uint.
    destruct (Pos.to_uint p) as [|u|u|u|u|u|u|u|u|u|u]; [done|..];
      rewrite (strip_no_space _ Hs); simpl in *; by rewrite Hp.
  - pose proof (DecimalPos.Unsigned.to_uint_nonnil p) as Hnil.
    pose proof (parse_digits_to_uint p) as Hp.
    assert (no_space (String "-" (NilZero.string_of_uint (Pos.to_uint p))) = true)
      as Hs.
    { unfold NilZero.string_of_uint.
      destruct (Pos.to_uint p); [done|..]; simpl; apply no_space_string_of_uint. }
    rewrite (strip_no_space _ Hs).
    unfold NilZero.string_of_uint.
    destruct (Pos.to_uint p); [done|..]; by rewrite Hp.
Qed.

#[global] Instance py_str_inj : Inj (=) (=) py_str.
Proof.
  intros m n Hmn. pose proof (py_int_py_str m) as Hm.
  rewrite Hmn, py_int_py_str in Hm. congruence.
Qed.

(** ** The stable sort *)

Section Sorting.
Context {A : Type} (lt : A → A → bool).

Lemma sort_insert_perm (x : A) (l : list A) : sort_insert lt x l ≡ₚ x :: l.
Proof.
  induction l as [|y l IH]; simpl; [done|].
  destruct (lt y x); [|done]. rewrite IH. apply perm_swap.
Qed.

Lemma list_sort_perm (l : list A) : list_sort lt l ≡ₚ l.
Proof.
  induction l as [|x l IH]; simpl; [done|].
  fold (list_sort lt l). by rewrite sort_insert_perm, IH.
Qed.

(** Stability: the elements of a class [P] no two members of which are
    strictly ordered keep their relative order. *)
Lemma filter_sort_insert (P : A → Prop) `{!∀ x, Decision (P x)} (x : A) (l : list A) :
  (∀ a b, P a → P b → lt b a = false) →
  filter P (sort_insert lt x l) = filter P (x :: l).
Proof.
  intros Htie. induction l as [|y l IH]; simpl; [done|].
  destruct (lt y x) eqn:Hyx; [|done].
  rewrite !filter_cons in *.
  destruct (decide (P y)) as [Hy|Hy]; destruct (decide (P x)) as [Hx|Hx];
    rewrite IH; try done.
  rewrite (Htie x y Hx Hy) in Hyx. done.
Qed.

Lemma filter_list_sort (P : A → Prop) `{!∀ x, Decision (P x)} (l : list A) :
  (∀ a b, P a → P b → lt b a = false) →
  filter P (list_sort lt l) = filter P l.
Proof.
  intros Htie. induction l as [|x l IH]; simpl; [done|].
  fold (list_sort lt l). rewrite filter_sort_insert by done.
  by rewrite !filter_cons, IH.
Qed.

(** Order: where [lt] is the strict part of a total preorder [le] on the
    elements that satisfy [ok], a list of such elements is sorted for [le]. *)
Context (le : A → A → Prop) (ok : A → Prop).
Hypothesis le_total : ∀ a b, ok a → ok b → lt b a = false → le a b.
Hypothesis lt_le : ∀ a b, lt a b = true → le a b.
Hypothesis le_trans : ∀ a b c, le a b → le b c → le a c.

Lemma sort_insert_sorted (x : A) (l : list A) :
  ok x → Forall ok l → StronglySorted le l → StronglySorted le (sort_insert lt x l).
Proof.
  intros Hx Hok Hl. induction Hl as [|y l Hl IH Hy]; simpl.
  - repeat constructor.
  - apply Forall_cons in Hok as [Hoky Hok].
    destruct (lt y x) eqn:Hyx.
    + constructor; [by apply IH|].
      rewrite sort_insert_perm. constructor; [by apply lt_le|done].
    + assert (le x y) by (by apply le_total).
      constructor; [by constructor|].
      constructor; [done|]. eapply Forall_impl; [exact Hy|]. eauto.
Qed.

Lemma list_sort_sorted (l : list A) :
  Forall ok l → StronglySorted le (list_sort lt l).
Proof.
  induction l as [|x l IH]; intros Hok; simpl; [constructor|].
  apply Forall_cons in Hok as [Hx Hok]. fold (list_sort lt l).
  apply sort_insert_sorted; [done| |by apply IH].
  by rewrite list_sort_perm.
Qed.

End Sorting.

Lemma StronglySorted_snoc {A} (R : A → A → Prop) (l : list A) (x : A) :
  StronglySorted R l → Forall (λ y, R y x) l → StronglySorted R (l ++ [x]).
Proof.
  intros Hl. induction Hl as [|y l Hl IH Hy]; intros Hx; simpl.
  - repeat constructor.
  - apply Forall_cons in Hx as [Hyx Hx].
    constructor; [by apply IH|]. apply Forall_app. by repeat constructor.
Qed.

Lemma StronglySorted_reverse {A} (R : A → A → Prop) (l : list A) :
  StronglySorted R l → StronglySorted (flip R) (reverse l).
Proof.
  intros Hl. induction Hl as [|y l Hl IH Hy]; [constructor|].
  rewrite reverse_cons. apply StronglySorted_snoc; [done|].
  by rewrite reverse_Permutation.
Qed.

(** [sorted(l, key=key, reverse=True)] is a permutation of [l], in descending
    order of the key when no key is a NaN, and elements whose keys compare
    equal are in the order they have in [l]. *)
Section SortedReverse.
Context {A : Type} (key : A → float).

Lemma sorted_reverse_perm (l : list A) : sorted_reverse key l ≡ₚ l.
Proof.
  unfold sorted_reverse. by rewrite reverse_Permutation, list_sort_perm,
    reverse_Permutation.
Qed.

Lemma sorted_reverse_descending (l : list A) :
  Forall (λ a, Float.is_nan (key a) = false) l →
  StronglySorted (descending key) (sorted_reverse key l).
Proof.
  intros Hl. unfold sorted_reverse.
  apply (StronglySorted_reverse (λ a b, (key a <=? key b)%flt = true)).
  apply (list_sort_sorted _ _ (λ a, Float.is_nan (key a) = false)).
  - intros a b Ha Hb. by apply float_leb_total.
  - intros a b. apply float_ltb_leb.
  - intros a b c. apply float_leb_trans.
  - by rewrite reverse_Permutation.
Qed.

Lemma sorted_reverse_stable (p : float) (l : list A) :
  filter (tied key p) (sorted_reverse key l) = filter (tied key p) l.
Proof.
  unfold sorted_reverse.
  rewrite filter_reverse, filter_list_sort, filter_reverse, reverse_involutive;
    [done|].
  intros a b Ha Hb. by apply (float_tie_not_ltb _ _ p).
Qed.

End SortedReverse.

(** ** Export and import of the store *)

Lemma candidate_of_to_json (cand : LaTeXCandidate.t) :
  candidate_of_json (candidate_to_json cand) = Ok cand.
Proof. by destruct cand as [? ? ? [d|]]. Qed.

Lemma rmap_candidate_of_to_json (l : list LaTeXCandidate.t) :
  rmap candidate_of_json (candidate_to_json <$> l) = Ok l.
Proof.
  induction l as [|cand l IH]; [done|].
  rewrite fmap_cons. cbn [rmap]. rewrite candidate_of_to_json. cbn [mbind result_bind].
  by rewrite IH.
Qed.

Lemma from_json_item_to_json (acc : store) (class_id : Z) (mapping : SymbolMapping.t) :
  from_json_item acc (py_str class_id, mapping_to_json mapping)
  = Ok (<[class_id := rekey class_id mapping]> acc).
Proof.
  unfold from_json_item. simpl. rewrite py_int_py_str. simpl.
  by rewrite rmap_candidate_of_to_json.
Qed.

Lemma rfold_from_json_to_json (l : list (Z * SymbolMapping.t)) (acc : store) :
  rfold from_json_item acc
    ((λ '(class_id, mapping), (py_str class_id, mapping_to_json mapping)) <$> l)
  = Ok (foldl (λ (acc : store) kv, <[kv.1 := rekey kv.1 kv.2]> acc) acc l).
Proof.
  revert acc. induction l as [|[k m] l IH]; intros acc; [done|].
  simpl. rewrite from_json_item_to_json. simpl. apply IH.
Qed.

Section FoldInsert.
Context {V : Type} (g : Z → V → V).

Let step (acc : gmap Z V) (kv : Z * V) : gmap Z V := <[kv.1 := g kv.1 kv.2]> acc.

Lemma foldl_insert_notin (l : list (Z * V)) (acc : gmap Z V) (i : Z) :
  i ∉ l.*1 → foldl step acc l !! i = acc !! i.
Proof.
  revert acc. induction l as [|[k v] l IH]; intros acc Hi; [done|].
  simpl in *. apply not_elem_of_cons in Hi as [Hik Hi].
  rewrite IH by done. unfold step. simpl. by rewrite lookup_insert_ne.
Qed.

Lemma foldl_insert_in (l : list (Z * V)) (acc : gmap Z V) (i : Z) (v : V) :
  NoDup l.*1 → (i, v) ∈ l → foldl step acc l !! i = Some (g i v).
Proof.
  revert acc. induction l as [|[k w] l IH]; intros acc Hnd Hi.
  - by apply elem_of_nil in Hi.
  - simpl in *. apply NoDup_cons in Hnd as [Hk Hnd].
    apply elem_of_cons in Hi as [[= -> ->]|Hi].
    + rewrite foldl_insert_notin by done. unfold step. simpl.
      by rewrite lookup_insert_eq.
    + by apply IH.
Qed.

End FoldInsert.

Lemma from_json_data_to_json_data (self : store) :
  from_json_data (to_json_data self) = Ok (map_imap (λ k m, Some (rekey k m)) self).
Proof.
  unfold from_json_data, to_json_data. simpl.
  rewrite rfold_from_json_to_json. f_equal. apply map_eq. intros i.
  rewrite map_lookup_imap.
  destruct (self !! i) as [m|] eqn:Hi; simpl.
  - apply (foldl_insert_in rekey); [apply NoDup_fst_map_to_list|].
    by apply elem_of_map_to_list.
  - rewrite (foldl_insert_notin rekey); [done|].
    intros ([k m] & -> & Hkm)%list_elem_of_fmap.
    apply elem_of_map_to_list in Hkm. simpl in *. congruence.
Qed.

Lemma candidate_to_json_wf (cand : LaTeXCandidate.t) : json_wf (candidate_to_json cand).
Proof.
  destruct cand as [? ? ? [d|]]; simpl;
    (split; [by apply (bool_decide_unpack _)|done]).
Qed.

Lemma mapping_to_json_wf (mapping : SymbolMapping.t) : json_wf (mapping_to_json mapping).
Proof.
  simpl. split; [by apply (bool_decide_unpack _)|].
  repeat split. induction (SymbolMapping.latex_candidates mapping) as [|c l IH];
    [done|]. split; [apply candidate_to_json_wf|apply IH].
Qed.

Lemma to_json_data_wf (self : store) : json_wf (to_json_data self).
Proof.
  unfold to_json_data. simpl. split.
  - rewrite <- list_fmap_compose.
    rewrite (list_fmap_ext _ (py_str ∘ fst) (map_to_list self))
      by (by intros ? []).
    rewrite list_fmap_compose. apply NoDup_fmap_2; [apply _|].
    apply NoDup_fst_map_to_list.
  - induction (map_to_list self) as [|[k m] l IH]; [done|].
    split; [apply mapping_to_json_wf|apply IH].
Qed.

(** ** The merge *)

Lemma merge_lookup (self full_db : store) (i : Z) :
  merge self full_db !! i
  = match self !! i with Some m => Some m | None => full_db !! i end.
Proof.
  unfold merge.
  assert (∀ (l : list (Z * SymbolMapping.t)) (acc : store),
    NoDup l.*1 →
    foldl (λ (self : store) '(class_id, mapping),
             match self !! class_id with
             | None => <[class_id := mapping]> self
             | Some _ => self
             end) acc l !! i
    = match acc !! i with
      | Some m => Some m
      | None => (list_to_map l : store) !! i
      end) as Hfold.
  { induction l as [|[k m] l IH]; intros acc Hnd; simpl.
    - rewrite lookup_empty. by destruct (acc !! i).
    - apply NoDup_cons in Hnd as [Hk Hnd]. rewrite IH by done.
      destruct (decide (k = i)) as [->|Hki].
      + rewrite lookup_insert_eq.
        destruct (acc !! i) eqn:Hi; [by rewrite Hi|].
        by rewrite lookup_insert_eq.
      + rewrite (lookup_insert_ne (list_to_map l)) by done.
        destruct (acc !! k); [done|]. by rewrite lookup_insert_ne. }
  rewrite Hfold by apply NoDup_fst_map_to_list.
  by rewrite list_to_map_to_list.
Qed.

(** The merged store is the union in which [self] takes precedence. *)
Lemma merge_union (self full_db : store) : merge self full_db = self ∪ full_db.
Proof.
  apply map_eq. intros i. rewrite merge_lookup, lookup_union.
  by destruct (self !! i), (full_db !! i).
Qed.

(** ** Claims on the store *)

(** C3: deserializing the text that serializing a store produces succeeds and
    yields a store with the same set of symbol ids in which every id has the
    same symbol name and the same list of candidates, in the same order and
    with the same command, priority, context and description (absent ones
    included). *)
Theorem from_json_to_json_roundtrip {text : Type} `{JsonCodecLaws text} (self : store) :
  ∃ db : store,
    from_json (to_json self) = Ok db
    ∧ dom db = dom self
    ∧ ∀ symbol_id : Z,
        match get_mapping self symbol_id with
        | Some mapping =>
            ∃ mapping', get_mapping db symbol_id = Some mapping'
              ∧ SymbolMapping.symbol_name mapping' = SymbolMapping.symbol_name mapping
              ∧ SymbolMapping.latex_candidates mapping'
                = SymbolMapping.latex_candidates mapping
        | None => get_mapping db symbol_id = None
        end.
Proof.
  exists (map_imap (λ k m, Some (rekey k m)) self).
  assert (∀ i, map_imap (λ k m, Some (rekey k m)) self !! i = rekey i <$> self !! i)
    as Hlookup.
  { intros i. rewrite map_lookup_imap. by destruct (self !! i). }
  split; [|split].
  - unfold from_json, to_json.
    rewrite (loads_dumps _ (to_json_data_wf self)). simpl.
    apply from_json_data_to_json_data.
  - apply set_eq. intros i. rewrite !elem_of_dom, Hlookup.
    by rewrite fmap_is_Some.
  - intros i. unfold get_mapping. rewrite Hlookup.
    destruct (self !! i) as [m|]; simpl; [|done].
    by exists (rekey i m).
Qed.

Lemma from_json_to_json_roundtrip_seed :
  ∃ db : store,
    from_json (text := option json) (to_json SymbolMappingDatabase.init) = Ok db
    ∧ dom db = dom SymbolMappingDatabase.init
    ∧ ∀ symbol_id : Z,
        match get_mapping SymbolMappingDatabase.init symbol_id with
        | Some mapping =>
            ∃ mapping', get_mapping db symbol_id = Some mapping'
              ∧ SymbolMapping.symbol_name mapping' = SymbolMapping.symbol_name mapping
              ∧ SymbolMapping.latex_candidates mapping'
                = SymbolMapping.latex_candidates mapping
        | None => get_mapping db symbol_id = None
        end.
Proof.
  apply (@from_json_to_json_roundtrip (option json) sample_codec).
  intros v Hv. reflexivity.
Defined.

Lemma from_json_item_inv (acc acc' : store) (key : string) (record : json) :
  from_json_item acc (key, record) = Ok acc' →
  ∃ id mapping,
    py_int key = Ok id
    ∧ SymbolMapping.symbol_class_id mapping = id
    ∧ acc' = <[id := mapping]> acc
    ∧ from_json_item ∅ (key, record) = Ok {[id := mapping]}.
Proof.
  unfold from_json_item. simpl.
  destruct (py_int key) as [id|]; simpl; [|done].
  destruct (getitem "latex_candidates" record ≫= iterate) as [cands|]; simpl; [|done].
  destruct (rmap candidate_of_json cands) as [candidates|]; simpl; [|done].
  destruct (getitem "symbol_name" record ≫= as_str) as [name|]; simpl; [|done].
  intros [= <-]. eexists id, _. split; [done|]. split; [|split]; [|done..].
  done.
Qed.

Lemma rfold_from_json_item_inv (items : list (string * json)) (acc db : store) :
  rfold from_json_item acc items = Ok db →
  ∀ id mapping, db !! id = Some mapping →
    acc !! id = Some mapping
    ∨ (SymbolMapping.symbol_class_id mapping = id
       ∧ ∃ key record, (key, record) ∈ items ∧ py_int key = Ok id
           ∧ from_json_item ∅ (key, record) = Ok {[id := mapping]}).
Proof.
  revert acc. induction items as [|[key record] items IH]; intros acc Hfold id m Hm.
  - left. simpl in Hfold. congruence.
  - simpl in Hfold.
    destruct (from_json_item acc (key, record)) as [acc'|] eqn:Hitem; [|done].
    simpl in Hfold.
    destruct (IH _ Hfold _ _ Hm) as [Hacc|(Hid & k & r & Hin & Hk & Hr)].
    + apply from_json_item_inv in Hitem as (id' & m' & Hkey & Hid & -> & Hone).
      destruct (decide (id' = id)) as [->|Hne].
      * rewrite lookup_insert_eq in Hacc. injection Hacc as ->.
        right. split; [done|]. exists key, record.
        split; [apply list_elem_of_here|done].
      * rewrite lookup_insert_ne in Hacc by done. by left.
    + right. split; [done|]. exists k, r.
      split; [by apply list_elem_of_further|done].
Qed.

(** C10: in the store deserialized from a text, every mapping has for
    [symbol_class_id] the integer its key in the serialized record parses to,
    and it is the mapping built from a record under such a key; the record's
    own [symbol_class_id] field is never read: two records with the same
    name and candidates fields yield the same mapping under the same key. *)
Theorem from_json_key_wins {text : Type} `{JsonCodec text} (json_str : text) (db : store) :
  from_json json_str = Ok db →
  ∃ items,
    json_loads json_str = Ok (JObj items)
    ∧ (∀ id mapping, get_mapping db id = Some mapping →
         SymbolMapping.symbol_class_id mapping = id
         ∧ ∃ key record, (key, record) ∈ items ∧ py_int key = Ok id
             ∧ from_json_item ∅ (key, record) = Ok {[id := mapping]})
    ∧ (∀ acc key fields fields',
         dict_get "symbol_name" fields = dict_get "symbol_name" fields' →
         dict_get "latex_candidates" fields = dict_get "latex_candidates" fields' →
         from_json_item acc (key, JObj fields) = from_json_item acc (key, JObj fields')).
Proof.
  unfold from_json. intros Hdb.
  destruct (json_loads json_str) as [data|]; simpl in Hdb; [|done].
  unfold from_json_data in Hdb.
  destruct data as [| | | | | |items]; simpl in Hdb; try done.
  exists items. split; [done|]. split.
  - intros id m Hm.
    destruct (rfold_from_json_item_inv _ _ _ Hdb _ _ Hm) as [Hempty|Hitem]; [|done].
    by rewrite lookup_empty in Hempty.
  - intros acc key fields fields' Hname Hcands.
    unfold from_json_item. simpl. by rewrite Hname, Hcands.
Qed.

Lemma from_json_key_wins_mismatch :
  from_json mismatched_text
    = Ok {[ 7 := SymbolMapping.make 7 "seven" [] ]}
  ∧ ∃ items,
    json_loads mismatched_text = Ok (JObj items)
    ∧ (∀ id mapping,
         get_mapping {[ 7 := SymbolMapping.make 7 "seven" [] ]} id = Some mapping →
         SymbolMapping.symbol_class_id mapping = id
         ∧ ∃ key record, (key, record) ∈ items ∧ py_int key = Ok id
             ∧ from_json_item ∅ (key, record) = Ok {[id := mapping]})
    ∧ (∀ acc key fields fields',
         dict_get "symbol_name" fields = dict_get "symbol_name" fields' →
         dict_get "latex_candidates" fields = dict_get "latex_candidates" fields' →
         from_json_item acc (key, JObj fields) = from_json_item acc (key, JObj fields')).
Proof.
  split; [reflexivity|].
  apply (from_json_key_wins mismatched_text).
  reflexivity.
Defined.

Lemma load_full_mapping_preserves {text : Type} `{JsonCodec text}
    (fs : filesystem text) (filepath : string) (self : store) (id : Z)
    (mapping : SymbolMapping.t) :
  self !! id = Some mapping → (load_full_mapping fs filepath self).2 !! id = Some mapping.
Proof.
  intros Hid. unfold load_full_mapping.
  destruct (from_json_file fs filepath) as [full_db|e]; simpl; [|done].
  by rewrite merge_lookup, Hid.
Qed.

(** C4: a mapping that is in the store before a merge is the mapping of its
    id after it, for one merge and for any sequence of merges of the same or
    of different files; a merge gives an id that was absent the mapping of
    the merged collection, if it has one, and changes nothing else. *)
Theorem merge_keeps_existing_mappings {text : Type} `{JsonCodec text}
    (self : store) (id : Z) (mapping : SymbolMapping.t) :
  get_mapping self id = Some mapping →
  (∀ full_db, get_mapping (merge self full_db) id = Some mapping)
  ∧ (∀ fs filepath,
       get_mapping (load_full_mapping fs filepath self).2 id = Some mapping)
  ∧ (∀ sources : list (filesystem text * string),
       get_mapping (load_all sources self) id = Some mapping)
  ∧ (∀ full_db other,
       get_mapping (merge self full_db) other
       = match get_mapping self other with
         | Some m => Some m
         | None => get_mapping full_db other
         end).
Proof.
  unfold get_mapping. intros Hid. repeat split.
  - intros full_db. by rewrite merge_lookup, Hid.
  - intros fs filepath. by apply load_full_mapping_preserves.
  - intros sources. unfold load_all. revert self Hid.
    induction sources as [|[fs filepath] sources IH]; intros self Hid; [done|].
    simpl. apply IH. by apply load_full_mapping_preserves.
  - intros full_db other. apply merge_lookup.
Qed.

Lemma merge_keeps_existing_mappings_seed :
  ∃ mapping,
    SymbolMapping.symbol_name mapping = "double right arrow"
    ∧ get_mapping SymbolMappingDatabase.init 1 = Some mapping
    ∧ get_mapping
        (load_all [ (one_file "full.json" (Ok generated_text), "full.json");
                    (one_file "full.json" (Ok generated_text), "full.json");
                    (one_file "other.json" (Ok None), "other.json") ]
           SymbolMappingDatabase.init) 1 = Some mapping.
Proof.
  eexists. split; [|split]; [|reflexivity|]; [reflexivity|].
  apply (merge_keeps_existing_mappings (text := option json)
           SymbolMappingDatabase.init 1).
  reflexivity.
Defined.

(** The default weights pass the validation of the ranker. *)
Lemma default_weights_valid (db : store) :
  CandidateRanker.init (Some db) (Float.lit 6 1) (Float.lit 4 1)
  = Ok (CandidateRanker.make db (Float.lit 6 1) (Float.lit 4 1)).
Proof. reflexivity. Qed.



(** C5, as stated, fails: the merge of a file that is not JSON ends in the
    exception, not in a warning. *)
Lemma merge_failure_is_raised :
  ¬ (∀ (fs : filesystem (option json)) (filepath : string) (self : store) (e : exn),
       from_json_file fs filepath = Raise e →
       (load_full_mapping fs filepath self).1 = Ok ())
  ∧ load_full_mapping (one_file "full.json" (Ok None)) "full.json"
      SymbolMappingDatabase.init
    = (Raise JSONDecodeError, SymbolMappingDatabase.init).
Proof.
  split; [|reflexivity]. intros Hclaim.
  specialize (Hclaim (one_file "full.json" (Ok None)) "full.json"
                SymbolMappingDatabase.init JSONDecodeError eq_refl).
  discriminate Hclaim.
Qed.

(** ** The suggestions of the ranker *)

Lemma foldl_append {A B} (f : A → B) (l : list A) (acc : list B) :
  foldl (λ acc a, acc ++ [f a]) acc l = acc ++ (f <$> l).
Proof.
  revert acc. induction l as [|a l IH]; intros acc; simpl.
  - by rewrite app_nil_r.
  - by rewrite IH, <- app_assoc.
Qed.

Lemma rank_candidates_from_top_k_sorted (self : CandidateRanker.t)
    (top_k_symbols : list (Z * float)) (k : Z) :
  rank_candidates_from_top_k self top_k_symbols k
  = list_sort RankedCandidate.lt (top_k_symbols ≫= suggestions_for self k).
Proof.
  unfold rank_candidates_from_top_k. f_equal.
  match goal with |- foldl ?f _ _ = _ => set (body := f) end.
  assert (∀ acc selected, body acc selected = acc ++ suggestions_for self k selected)
    as Hbody.
  { intros acc [symbol_id confidence]. unfold body, suggestions_for. simpl.
    destruct (get_ranked_candidates (mapping_db self) symbol_id); [done|].
    apply (foldl_append (scored self symbol_id confidence)). }
  rewrite <- (app_nil_l (top_k_symbols ≫= _)). generalize (@nil RankedCandidate.t).
  induction top_k_symbols as [|selected l IH]; intros acc.
  - by rewrite app_nil_r.
  - cbn [foldl]. by rewrite IH, Hbody, bind_cons, app_assoc.
Qed.

(** The vector entry point sorts the suggestions of the selected pairs,
    scored in the arithmetic of a scalar of the dtype of the vector. *)
Lemma rank_candidates_sorted `{NumpyOps} (self : CandidateRanker.t)
    (vision_predictions : ndarray) (top_k_symbols k : Z) :
  rank_candidates self vision_predictions top_k_symbols k
  = (selected ← top_k_selection vision_predictions top_k_symbols;
     Ok (list_sort RankedCandidate.lt
           (selected ≫= suggestions_for_in (dtype_of vision_predictions) self k))).
Proof.
  unfold rank_candidates. cbv zeta.
  destruct (top_k_selection vision_predictions top_k_symbols) as [selected|]; [|done].
  cbn [mbind result_bind]. do 2 f_equal.
  match goal with |- foldl ?f _ _ = _ => set (body := f) end.
  assert (∀ acc selected,
    body acc selected
    = acc ++ suggestions_for_in (dtype_of vision_predictions) self k selected) as Hbody.
  { intros acc [symbol_id confidence]. unfold body, suggestions_for_in. simpl.
    destruct (get_ranked_candidates (mapping_db self) symbol_id); [done|].
    apply (foldl_append
             (scored_in (dtype_of vision_predictions) self symbol_id confidence)). }
  rewrite <- (app_nil_l (selected ≫= _)). generalize (@nil RankedCandidate.t).
  induction selected as [|pair l IH]; intros acc.
  - by rewrite app_nil_r.
  - cbn [foldl]. by rewrite IH, Hbody, bind_cons, app_assoc.
Qed.










Lemma rank_candidates_from_top_k_perm (self : CandidateRanker.t)
    (top_k_symbols : list (Z * float)) (k : Z) :
  rank_candidates_from_top_k self top_k_symbols k
  ≡ₚ top_k_symbols ≫= suggestions_for self k.
Proof. rewrite rank_candidates_from_top_k_sorted. apply list_sort_perm. Qed.

Lemma suggestions_for_score (self : CandidateRanker.t) (k : Z) (selected : Z * float)
    (rc : RankedCandidate.t) :
  rc ∈ suggestions_for self k selected →
  RankedCandidate.symbol_class_id rc = selected.1
  ∧ RankedCandidate.vision_confidence rc = selected.2
  ∧ RankedCandidate.combined_score rc
    = (vision_weight self * RankedCandidate.vision_confidence rc
       + math_weight self * RankedCandidate.math_priority rc)%flt.
Proof.
  unfold suggestions_for.
  destruct (get_ranked_candidates (mapping_db self) selected.1) as [|c l].
  - intros ->%list_elem_of_singleton. simpl.
    by rewrite (float_mul_comm selected.2), (float_mul_comm (Float.lit 5 1)).
  - intros (cand & -> & _)%list_elem_of_fmap. simpl.
    by rewrite (float_mul_comm selected.2),
      (float_mul_comm (LaTeXCandidate.math_priority cand)).
Qed.



(** ** Claims on the ranker *)



(** C1, as stated, fails on a float32 vector with NumPy 2: the score of the
    one suggestion for symbol 1 at the float32 nearest to 0.7 is computed in
    float32, and is not what the formula gives in binary64 for the recorded
    confidence and priority. *)
Lemma float32_score_off_formula :
  ∃ rc,
    rank_candidates default_ranker float32_predictions 1 1 = Ok [rc]
    ∧ RankedCandidate.math_priority rc = Float.lit 10 1
    ∧ RankedCandidate.combined_score rc
      ≠ formula_score (Float.lit 6 1) (Float.lit 4 1)
          (RankedCandidate.vision_confidence rc) (RankedCandidate.math_priority rc).
Proof.
  eexists. split; [vm_compute; reflexivity|]. split; [vm_compute; reflexivity|].
  vm_compute. discriminate.
Qed.



(** C9, as stated, fails on a float32 vector with NumPy 2: the selection
    yields symbol 1 with the float32 nearest to 0.7, and the two entry points
    give this pair different scores. *)
Lemma float32_entry_points_differ :
  ∃ pairs,
    top_k_selection float32_predictions 1 = Ok pairs
    ∧ rank_candidates default_ranker float32_predictions 1 1
      ≠ Ok (rank_candidates_from_top_k default_ranker pairs 1).
Proof.
  eexists. split; [vm_compute; reflexivity|]. vm_compute. discriminate.
Qed.

Lemma filter_none {A} (P : A → Prop) `{!∀ x, Decision (P x)} (l : list A) :
  Forall (λ x, ¬ P x) l → filter P l = [].
Proof.
  induction 1 as [|x l Hx Hl IH]; [done|].
  by rewrite filter_cons, decide_False.
Qed.

Lemma placeholder_score (self : CandidateRanker.t) (symbol_id : Z) (confidence : float) :
  placeholder self symbol_id confidence
  = RankedCandidate.make
      ("\symbol_" +:+ py_str symbol_id) symbol_id confidence (Float.lit 5 1)
      (vision_weight self * confidence + math_weight self * Float.lit 5 1)%flt
      "symbol (no mapping available)"
      (Some ("Symbol class " +:+ py_str symbol_id +:+ " - mapping not yet available")).
Proof.
  unfold placeholder.
  by rewrite (float_mul_comm confidence), (float_mul_comm (Float.lit 5 1)).
Qed.








(** C8, as stated, fails with a limit of no candidate per symbol: of the
    selected symbols 77 (unmapped) and 1 (mapped), symbol 1 has no
    suggestion in the output. *)
Lemma zero_limit_drops_mapped_symbol :
  (1, Float.lit 85 2) ∈ sample_pairs
  ∧ is_Some (get_mapping SymbolMappingDatabase.init 1)
  ∧ ∀ rc,
      rc ∈ rank_candidates_from_top_k default_ranker sample_pairs 0 →
      RankedCandidate.symbol_class_id rc ≠ 1.
Proof.
  split; [apply list_elem_of_further, list_elem_of_here|].
  split; [vm_compute; eauto|].
  assert (rank_candidates_from_top_k default_ranker sample_pairs 0
          = [placeholder default_ranker 77 (Float.lit 3 1)]) as -> by reflexivity.
  by intros rc ->%list_elem_of_singleton.
Qed.

(** C6: the pair entry point returns the empty list for the empty list of
    pairs; the vector entry point raises [ValueError] for an empty vector of
    any dtype, when it takes the minimum of the array. *)
Theorem empty_prediction_inputs `{NumpyOps} (self : CandidateRanker.t)
    (top_k_symbols k : Z) :
  rank_candidates_from_top_k self [] k = []
  ∧ (∀ dtype, rank_candidates self (Array1 dtype []) top_k_symbols k = Raise ValueError)
  ∧ (∀ dtype, rank_candidates self (Array2 dtype [[]]) top_k_symbols k
              = Raise ValueError).
Proof. done. Qed.

(** ** The validation of the weights *)

(** When the sum of the weights is not a NaN, the construction succeeds
    exactly when the sum is 1 within 1e-6, with these weights, and else it
    raises [ValueError]. *)
Lemma init_validates_weights (mapping_db : option store)
    (vision_weight math_weight : float) :
  Float.is_nan (vision_weight + math_weight)%flt = false →
  let within_tolerance :=
    (Float.abs (vision_weight + math_weight - Float.lit 10 1)
     <=? Float.lit 1 6)%flt = true in
  ((∃ self, CandidateRanker.init mapping_db vision_weight math_weight = Ok self)
   ↔ within_tolerance)
  ∧ (within_tolerance →
     ∃ db, CandidateRanker.init mapping_db vision_weight math_weight
           = Ok (CandidateRanker.make db vision_weight math_weight))
  ∧ (¬ within_tolerance →
     CandidateRanker.init mapping_db vision_weight math_weight = Raise ValueError).
Proof.
  intros Hnan within_tolerance. unfold within_tolerance, CandidateRanker.init.
  pose proof (float_gtb_false
    (Float.abs (vision_weight + math_weight - Float.lit 10 1)%flt) (Float.lit 1 6))
    as Hiff.
  rewrite float_abs_sub_one_nan in Hiff. specialize (Hiff Hnan eq_refl).
  destruct (_ >? _)%flt.
  - assert (¬ (Float.abs (vision_weight + math_weight - Float.lit 10 1)
               <=? Float.lit 1 6)%flt = true) as Hno
      by (intros Hle; apply Hiff in Hle; done).
    repeat split; try done. by intros [self Hself].
  - assert ((Float.abs (vision_weight + math_weight - Float.lit 10 1)
             <=? Float.lit 1 6)%flt = true) as Hyes by (by apply Hiff).
    repeat split; try done; eauto.
Qed.

(** C2: a NaN weight passes the validation: the sum is not within 1e-6 of 1,
    and the ranker is constructed, with the NaN for weight. So does the pair
    of an infinite weight and the opposite infinite weight. *)
Theorem nan_weights_pass_validation (db : store) (math_weight : float) :
  (Float.abs (S754_nan + math_weight - Float.lit 10 1) <=? Float.lit 1 6)%flt = false
  ∧ CandidateRanker.init (Some db) S754_nan math_weight
    = Ok (CandidateRanker.make db S754_nan math_weight)
  ∧ (Float.abs (S754_infinity false + S754_infinity true - Float.lit 10 1)
     <=? Float.lit 1 6)%flt = false
  ∧ CandidateRanker.init (Some db) (S754_infinity false) (S754_infinity true)
    = Ok (CandidateRanker.make db (S754_infinity false) (S754_infinity true)).
Proof. done. Qed.

(** ** The ranked candidates of a symbol *)

Lemma float_compare_refl (x : float) :
  Float.is_nan x = false → SFcompare x x = Some Eq.
Proof.
  destruct x as [[]|[]| |[] m e]; simpl; try done; intros _;
    compare_cases; try done; lia.
Qed.

Lemma float_leb_refl (x : float) : Float.is_nan x = false → (x <=? x)%flt = true.
Proof. intros Hx. unfold Float.leb, SFleb. by rewrite float_compare_refl. Qed.

Lemma float_leb_antisym (x y : float) :
  (x <=? y)%flt = true → (y <=? x)%flt = true → Float.eqb x y = true.
Proof.
  unfold Float.leb, Float.eqb, SFleb, SFeqb. rewrite (float_compare_antisym x y).
  by destruct (SFcompare x y) as [[]|].
Qed.

Section StableSortUnique.
Context {A : Type} (key : A → float).

(** A permutation that is in descending order of the key and keeps the
    elements of equal key in their order is determined. *)
Lemma stable_descending_unique (l l' : list A) :
  Forall (λ a, Float.is_nan (key a) = false) l →
  l ≡ₚ l' →
  StronglySorted (descending key) l → StronglySorted (descending key) l' →
  (∀ p, filter (tied key p) l = filter (tied key p) l') →
  l = l'.
Proof.
  revert l'. induction l as [|a l IH]; intros l' Hok Hperm Hl Hl' Hstable.
  - by apply Permutation_nil in Hperm.
  - destruct l' as [|x l']; [by apply Permutation_sym, Permutation_nil in Hperm|].
    apply Forall_cons in Hok as [Ha Hok].
    apply StronglySorted_inv in Hl as [Hl Hal].
    apply StronglySorted_inv in Hl' as [Hl' Hxl'].
    assert (Forall (λ a, Float.is_nan (key a) = false) (x :: l')) as Hok'
      by (rewrite <- Hperm; by constructor).
    apply Forall_cons in Hok' as [Hx Hok'].
    assert ((key a <=? key x)%flt = true) as Hax.
    { assert (a ∈ x :: l') as [->|Hin]%elem_of_cons
        by (rewrite <- Hperm; apply list_elem_of_here).
      - by apply float_leb_refl.
      - by apply (proj1 (Forall_forall _ _) Hxl'). }
    assert ((key x <=? key a)%flt = true) as Hxa.
    { assert (x ∈ a :: l) as [->|Hin]%elem_of_cons
        by (rewrite Hperm; apply list_elem_of_here).
      - by apply float_leb_refl.
      - by apply (proj1 (Forall_forall _ _) Hal). }
    assert (a = x) as <-.
    { pose proof (Hstable (key a)) as Hp. rewrite !filter_cons in Hp.
      rewrite decide_True in Hp
        by (unfold tied; by apply float_leb_antisym; apply float_leb_refl).
      rewrite decide_True in Hp by (unfold tied; by apply float_leb_antisym).
      congruence. }
    f_equal. apply IH; try done.
    + by apply Permutation_cons_inv in Hperm.
    + intros p. specialize (Hstable p). rewrite !filter_cons in Hstable.
      destruct (decide (tied key p a)); congruence.
Qed.

End StableSortUnique.

Lemma no_nan_priority_Forall (candidates : list LaTeXCandidate.t) :
  no_nan_priority candidates = true →
  Forall (λ c, Float.is_nan (LaTeXCandidate.math_priority c) = false) candidates.
Proof.
  unfold no_nan_priority. rewrite forallb_forall, Forall_forall.
  intros Hall c Hc. apply negb_true_iff, Hall. by apply list_elem_of_In.
Qed.

(** C7: for a symbol id that is not in the store the ranked candidates are
    the empty list; for one that is, they are the stored candidates (none of
    whose priorities is a NaN), in descending order of priority, those of
    equal priority in their stored order; and they are the only such list,
    so that every call returns the same sequence. *)
Theorem get_ranked_candidates_stable_descending (self : store) (symbol_id : Z) :
  let stored :=
    match get_mapping self symbol_id with
    | Some mapping => SymbolMapping.latex_candidates mapping
    | None => []
    end in
  let ranked := get_ranked_candidates self symbol_id in
  no_nan_priority stored = true →
  (get_mapping self symbol_id = None → ranked = [])
  ∧ ranked ≡ₚ stored
  ∧ StronglySorted (descending LaTeXCandidate.math_priority) ranked
  ∧ (∀ p, filter (tied LaTeXCandidate.math_priority p) ranked
          = filter (tied LaTeXCandidate.math_priority p) stored)
  ∧ (∀ other,
       other ≡ₚ stored →
       StronglySorted (descending LaTeXCandidate.math_priority) other →
       (∀ p, filter (tied LaTeXCandidate.math_priority p) other
             = filter (tied LaTeXCandidate.math_priority p) stored) →
       other = ranked).
Proof.
  intros stored ranked Hok%no_nan_priority_Forall.
  assert (ranked = sorted_reverse LaTeXCandidate.math_priority stored) as Hranked.
  { unfold ranked, stored, get_ranked_candidates.
    by destruct (get_mapping self symbol_id). }
  split; [|split; [|split; [|split]]].
  - intros Hnone. unfold ranked, get_ranked_candidates. by rewrite Hnone.
  - rewrite Hranked. apply sorted_reverse_perm.
  - rewrite Hranked. by apply sorted_reverse_descending.
  - intros p. rewrite Hranked. apply sorted_reverse_stable.
  - intros other Hperm Hsorted Hstable. rewrite Hranked.
    apply (stable_descending_unique LaTeXCandidate.math_priority).
    + by rewrite Hperm.
    + by rewrite Hperm, sorted_reverse_perm.
    + done.
    + by apply sorted_reverse_descending.
    + intros p. by rewrite Hstable, sorted_reverse_stable.
Qed.

Lemma get_ranked_candidates_right_arrow :
  LaTeXCandidate.command <$> get_ranked_candidates SymbolMappingDatabase.init 3
    = ["\mapsto"; "\rightarrow"; "\to"]
  ∧ StronglySorted (descending LaTeXCandidate.math_priority)
      (get_ranked_candidates SymbolMappingDatabase.init 3).
Proof.
  split; [reflexivity|].
  apply (get_ranked_candidates_stable_descending SymbolMappingDatabase.init 3).
  reflexivity.
Defined.

(** * More properties of the code *)

(** ** Export and import, beyond the round trip *)

Lemma keyed_seed : keyed SymbolMappingDatabase.init.
Proof. apply (bool_decide_unpack _). vm_compute. exact I. Qed.

(** X1: a store that has every mapping under its own [symbol_class_id], as
    the seed store has, is read back from its serialization exactly. *)
Theorem from_json_to_json_exact {text : Type} `{JsonCodecLaws text} (self : store) :
  keyed self → from_json (to_json self) = Ok self.
Proof.
  intros Hkeyed. unfold from_json, to_json.
  rewrite (loads_dumps _ (to_json_data_wf self)). simpl.
  rewrite from_json_data_to_json_data. f_equal. apply map_eq. intros i.
  rewrite map_lookup_imap. destruct (self !! i) as [m|] eqn:Hi; [|done]. simpl.
  specialize (Hkeyed i m Hi). simpl in Hkeyed. unfold rekey. rewrite <- Hkeyed.
  by destruct m.
Qed.

Lemma from_json_to_json_exact_seed :
  from_json (text := option json) (to_json SymbolMappingDatabase.init)
  = Ok SymbolMappingDatabase.init.
Proof.
  apply (@from_json_to_json_exact (option json) sample_codec).
  - intros v Hv. reflexivity.
  - apply (bool_decide_unpack _). vm_compute. exact I.
Defined.

Lemma rfold_app {A S} (body : S → A → result S) (s : S) (l1 l2 : list A) :
  rfold body s (l1 ++ l2) = rfold body s l1 ≫= λ s', rfold body s' l2.
Proof.
  revert s. induction l1 as [|a l1 IH]; intros s; [done|].
  simpl. destruct (body s a); [apply IH|done].
Qed.

(** X2: a record added at the end of a document is read into the store the
    document without it yields: it sets the mapping of the id its key parses
    to, replacing the mapping of an earlier record with such a key, and
    leaves the other ids as they are. *)
Theorem from_json_later_record_wins (items : list (string * json)) (key : string)
    (record : json) (db db' : store) :
  from_json_data (JObj items) = Ok db →
  from_json_data (JObj (items ++ [(key, record)])) = Ok db' →
  ∃ id mapping,
    py_int key = Ok id
    ∧ from_json_item ∅ (key, record) = Ok {[id := mapping]}
    ∧ get_mapping db' id = Some mapping
    ∧ ∀ other, other ≠ id → get_mapping db' other = get_mapping db other.
Proof.
  unfold from_json_data, get_mapping. simpl. intros Hdb Hdb'.
  rewrite rfold_app, Hdb in Hdb'. simpl in Hdb'.
  destruct (from_json_item db (key, record)) as [r|] eqn:Hitem; [|done].
  simpl in Hdb'. injection Hdb' as <-.
  apply from_json_item_inv in Hitem as (id & m & Hkey & _ & -> & Hone).
  exists id, m. split; [done|]. split; [done|]. split.
  - apply lookup_insert_eq.
  - intros other Hne. by apply lookup_insert_ne.
Qed.

Lemma from_json_later_record_wins_sample :
  ∃ id mapping,
    py_int "01" = Ok id
    ∧ from_json_item ∅ ("01", record_named "second") = Ok {[id := mapping]}
    ∧ get_mapping {[ 1 := SymbolMapping.make 1 "second" [] ]} id = Some mapping
    ∧ ∀ other, other ≠ id →
        get_mapping {[ 1 := SymbolMapping.make 1 "second" [] ]} other
        = get_mapping {[ 1 := SymbolMapping.make 1 "first" [] ]} other.
Proof.
  apply (from_json_later_record_wins [("1", record_named "first")] "01"
           (record_named "second")); reflexivity.
Defined.

Lemma from_json_item_raise (acc acc' : store) (item : string * json) (e : exn) :
  from_json_item acc item = Raise e → from_json_item acc' item = Raise e.
Proof.
  unfold from_json_item.
  destruct (py_int item.1) as [id|]; simpl; [|done].
  destruct (getitem "latex_candidates" item.2 ≫= iterate) as [cands|]; simpl; [|done].
  destruct (rmap candidate_of_json cands) as [candidates|]; simpl; [|done].
  by destruct (getitem "symbol_name" item.2 ≫= as_str) as [name|].
Qed.

(** X3: a document is read as a whole or not at all. When the records before
    a record are read and that record is not (its key is not an integer, or
    it has no "latex_candidates" or no "symbol_name" field), the exception of
    that record is the outcome of [from_json], whatever follows it. *)
Theorem from_json_bad_record (before after : list (string * json)) (key : string)
    (record : json) (db : store) :
  from_json_data (JObj before) = Ok db →
  (∀ e, from_json_item ∅ (key, record) = Raise e →
        from_json_data (JObj (before ++ (key, record) :: after)) = Raise e)
  ∧ (py_int key = Raise ValueError →
     from_json_item ∅ (key, record) = Raise ValueError)
  ∧ (∀ id fields, py_int key = Ok id → record = JObj fields →
       dict_get "latex_candidates" fields = None →
       from_json_item ∅ (key, record) = Raise (KeyError "latex_candidates"))
  ∧ (∀ id fields, py_int key = Ok id → record = JObj fields →
       dict_get "latex_candidates" fields = Some (JList []) →
       dict_get "symbol_name" fields = None →
       from_json_item ∅ (key, record) = Raise (KeyError "symbol_name")).
Proof.
  unfold from_json_data. simpl. intros Hdb. split; [|split; [|split]].
  - intros e He. rewrite rfold_app, Hdb. simpl.
    by rewrite (from_json_item_raise ∅ db _ _ He).
  - intros Hkey. unfold from_json_item. simpl. by rewrite Hkey.
  - intros id fields Hkey -> Hnone. unfold from_json_item. simpl.
    by rewrite Hkey, Hnone.
  - intros id fields Hkey -> Hcands Hname. unfold from_json_item. simpl.
    by rewrite Hkey, Hcands, Hname.
Qed.

Lemma from_json_bad_record_sample :
  from_json_data
    (JObj ([("1", record_named "first")]
           ++ ("x", record_named "second") :: [("3", record_named "third")]))
  = Raise ValueError.
Proof.
  pose proof (from_json_bad_record [("1", record_named "first")]
                [("3", record_named "third")] "x" (record_named "second")
                {[ 1 := SymbolMapping.make 1 "first" [] ]} eq_refl) as [Hbad _].
  apply Hbad. reflexivity.
Defined.

(** X4: of the fields of a candidate record, "command", "math_priority" and
    "context" are required, and missed in this order with a [KeyError]; a
    "description" that is absent is read as the one that is [null]. *)
Theorem candidate_of_json_fields (fields : list (string * json))
    (command context : string) (math_priority : float) :
  (dict_get "command" fields = None →
   candidate_of_json (JObj fields) = Raise (KeyError "command"))
  ∧ (dict_get "command" fields = Some (JStr command) →
     dict_get "math_priority" fields = None →
     candidate_of_json (JObj fields) = Raise (KeyError "math_priority"))
  ∧ (dict_get "command" fields = Some (JStr command) →
     dict_get "math_priority" fields = Some (JFloat math_priority) →
     dict_get "context" fields = None →
     candidate_of_json (JObj fields) = Raise (KeyError "context"))
  ∧ (dict_get "command" fields = Some (JStr command) →
     dict_get "math_priority" fields = Some (JFloat math_priority) →
     dict_get "context" fields = Some (JStr context) →
     (dict_get "description" fields = None
      ∨ dict_get "description" fields = Some JNull) →
     candidate_of_json (JObj fields)
     = Ok (LaTeXCandidate.make command math_priority context None)).
Proof.
  unfold candidate_of_json. simpl. repeat split.
  - by intros ->.
  - by intros -> ->.
  - by intros -> -> ->.
  - by intros -> -> -> [-> | ->].
Qed.

Lemma candidate_of_json_fields_sample :
  candidate_of_json
    (JObj [ ("command", JStr "\alpha"); ("math_priority", JFloat (Float.lit 8 1));
            ("context", JStr "Greek letter") ])
  = Ok (LaTeXCandidate.make "\alpha" (Float.lit 8 1) "Greek letter" None).
Proof.
  apply (candidate_of_json_fields _ "\alpha" "Greek letter" (Float.lit 8 1));
    first [reflexivity | left; reflexivity].
Defined.

(** ** Ranked candidates and merges *)

(** X5: the first ranked candidate of a symbol is a stored candidate of the
    highest priority, and among the stored candidates of that priority the
    one stored first; there are as many ranked candidates as stored ones. *)
Theorem top_ranked_candidate (self : store) (symbol_id : Z) (mapping : SymbolMapping.t)
    (top : LaTeXCandidate.t) (rest : list LaTeXCandidate.t) :
  get_mapping self symbol_id = Some mapping →
  no_nan_priority (SymbolMapping.latex_candidates mapping) = true →
  get_ranked_candidates self symbol_id = top :: rest →
  top ∈ SymbolMapping.latex_candidates mapping
  ∧ (∀ c, c ∈ SymbolMapping.latex_candidates mapping →
          (LaTeXCandidate.math_priority c <=? LaTeXCandidate.math_priority top)%flt = true)
  ∧ head (filter (tied LaTeXCandidate.math_priority (LaTeXCandidate.math_priority top))
            (SymbolMapping.latex_candidates mapping)) = Some top
  ∧ length (top :: rest) = length (SymbolMapping.latex_candidates mapping).
Proof.
  intros Hmap Hok%no_nan_priority_Forall Hranked.
  unfold get_ranked_candidates in Hranked. rewrite Hmap in Hranked.
  unfold SymbolMapping.get_ranked_candidates in Hranked.
  set (stored := SymbolMapping.latex_candidates mapping) in *.
  pose proof (sorted_reverse_perm LaTeXCandidate.math_priority stored) as Hperm.
  pose proof (sorted_reverse_descending LaTeXCandidate.math_priority stored Hok) as Hsorted.
  rewrite Hranked in Hperm, Hsorted.
  apply StronglySorted_inv in Hsorted as [_ Hrest].
  assert (top ∈ stored) as Htop by (rewrite <- Hperm; apply list_elem_of_here).
  assert (Float.is_nan (LaTeXCandidate.math_priority top) = false) as Hnan
    by (by apply (proj1 (Forall_forall _ _) Hok)).
  split; [done|]. split; [|split].
  - intros c Hc. rewrite <- Hperm in Hc. apply elem_of_cons in Hc as [->|Hc].
    + by apply float_leb_refl.
    + by apply (proj1 (Forall_forall _ _) Hrest).
  - rewrite <- (sorted_reverse_stable LaTeXCandidate.math_priority), Hranked.
    rewrite filter_cons, decide_True; [done|].
    unfold tied. by apply float_leb_antisym; apply float_leb_refl.
  - by rewrite Hperm.
Qed.

Lemma top_ranked_candidate_right_arrow :
  ∃ mapping top rest,
    get_mapping SymbolMappingDatabase.init 3 = Some mapping
    ∧ get_ranked_candidates SymbolMappingDatabase.init 3 = top :: rest
    ∧ LaTeXCandidate.command top = "\mapsto"
    ∧ ∀ c, c ∈ SymbolMapping.latex_candidates mapping →
        (LaTeXCandidate.math_priority c <=? LaTeXCandidate.math_priority top)%flt = true.
Proof.
  eexists _, _, _. split; [reflexivity|]. split; [reflexivity|]. split; [reflexivity|].
  eapply (top_ranked_candidate SymbolMappingDatabase.init 3); reflexivity.
Defined.

(** X6: merging the same file a second time changes nothing: the call has
    the outcome of the first and leaves the store the first left. *)
Theorem load_full_mapping_again {text : Type} `{JsonCodec text}
    (fs : filesystem text) (filepath : string) (self : store) :
  load_full_mapping fs filepath (load_full_mapping fs filepath self).2
  = load_full_mapping fs filepath self.
Proof.
  unfold load_full_mapping.
  destruct (from_json_file fs filepath) as [full_db|e]; simpl; [|done].
  f_equal. apply map_eq. intros i. rewrite !merge_lookup.
  by destruct (self !! i), (full_db !! i).
Qed.

(** X7: of two files merged one after the other, the first takes precedence
    over the second, and the store over both: an id has the mapping of the
    store, else that of the first file, else that of the second. *)
Theorem load_full_mapping_order {text : Type} `{JsonCodec text}
    (fs1 fs2 : filesystem text) (path1 path2 : string) (self first second : store) :
  from_json_file fs1 path1 = Ok first →
  from_json_file fs2 path2 = Ok second →
  let after := (load_full_mapping fs2 path2 (load_full_mapping fs1 path1 self).2).2 in
  after = self ∪ first ∪ second
  ∧ ∀ id, get_mapping after id
          = match get_mapping self id with
            | Some m => Some m
            | None =>
                match get_mapping first id with
                | Some m => Some m
                | None => get_mapping second id
                end
            end.
Proof.
  intros H1 H2 after. unfold after, load_full_mapping, get_mapping.
  rewrite H1. simpl. rewrite H2. simpl. split.
  - by rewrite !merge_union.
  - intros id. rewrite !merge_lookup. by destruct (self !! id).
Qed.

Lemma load_full_mapping_order_sample :
  get_mapping
    (load_full_mapping (one_file "b.json" (Ok mismatched_text)) "b.json"
       (load_full_mapping (one_file "a.json" (Ok generated_text)) "a.json"
          SymbolMappingDatabase.init).2).2 300
  = Some (SymbolMapping.make 300 "alpha"
            [ LaTeXCandidate.make "\alpha" (Float.lit 8 1) "Greek letter" None ]).
Proof.
  pose proof (load_full_mapping_order
    (one_file "a.json" (Ok generated_text)) (one_file "b.json" (Ok mismatched_text))
    "a.json" "b.json" SymbolMappingDatabase.init _ _ eq_refl eq_refl) as [_ Hlookup].
  rewrite Hlookup. reflexivity.
Defined.

Lemma from_json_keyed {text : Type} `{JsonCodec text} (json_str : text) (db : store) :
  from_json json_str = Ok db → keyed db.
Proof.
  unfold from_json. intros Hdb.
  destruct (json_loads json_str) as [data|]; simpl in Hdb; [|done].
  unfold from_json_data in Hdb.
  destruct data as [| | | | | |items]; simpl in Hdb; try done.
  intros id m Hm.
  destruct (rfold_from_json_item_inv _ _ _ Hdb _ _ Hm) as [Hempty|[Hid _]]; [|done].
  by rewrite lookup_empty in Hempty.
Qed.

(** X8: a merge keeps the store keyed by [symbol_class_id], whatever the
    file holds, and only adds ids: those of the collection that was read. *)
Theorem load_full_mapping_keeps_keyed {text : Type} `{JsonCodec text}
    (fs : filesystem text) (filepath : string) (self : store) :
  keyed self →
  let after := (load_full_mapping fs filepath self).2 in
  keyed after
  ∧ dom self ⊆ dom after
  ∧ ∀ full_db, from_json_file fs filepath = Ok full_db →
               dom after = dom self ∪ dom full_db.
Proof.
  intros Hkeyed after. unfold after, load_full_mapping.
  destruct (from_json_file fs filepath) as [full_db|e] eqn:Hfile; simpl.
  - rewrite merge_union. split; [|split].
    + apply map_Forall_union_2; [done|].
      unfold from_json_file in Hfile.
      destruct (read_file fs filepath) as [json_str|]; simpl in Hfile; [|done].
      by apply from_json_keyed in Hfile.
    + rewrite dom_union_L. set_solver.
    + intros ? [= <-]. by rewrite dom_union_L.
  - split; [done|]. split; [done|]. by intros.
Qed.

Lemma load_full_mapping_keeps_keyed_sample :
  keyed (load_full_mapping (one_file "a.json" (Ok mismatched_text)) "a.json"
           SymbolMappingDatabase.init).2.
Proof.
  apply (load_full_mapping_keeps_keyed (one_file "a.json" (Ok mismatched_text))
           "a.json" SymbolMappingDatabase.init).
  apply (bool_decide_unpack _). vm_compute. exact I.
Defined.

(** X9: a store that was saved to a file is loaded from that file with the
    same ids, and as it was when it is keyed by [symbol_class_id]. *)
Theorem save_then_load {text : Type} `{JsonCodecLaws text} `{!FileWriter text}
    `{!FileWriterLaws text} (self : store) (filepath : string)
    (fs fs' : filesystem text) :
  save_to_file self filepath fs = Ok fs' →
  ∃ db, from_json_file fs' filepath = Ok db
    ∧ dom db = dom self
    ∧ (keyed self → db = self).
Proof.
  unfold save_to_file. intros [_ Hread]%write_then_read.
  unfold from_json_file. rewrite Hread. simpl.
  unfold from_json, to_json. rewrite (loads_dumps _ (to_json_data_wf self)). simpl.
  rewrite from_json_data_to_json_data. eexists. split; [done|]. split.
  - apply set_eq. intros i. rewrite !elem_of_dom, map_lookup_imap.
    by destruct (self !! i).
  - intros Hkeyed. apply map_eq. intros i. rewrite map_lookup_imap.
    destruct (self !! i) as [m|] eqn:Hi; [|done]. simpl.
    specialize (Hkeyed i m Hi). simpl in Hkeyed. unfold rekey. rewrite <- Hkeyed.
    by destruct m.
Qed.

#[local] Instance sample_codec_laws : JsonCodecLaws (option json).
Proof. intros v Hv. reflexivity. Qed.

#[local] Instance sample_writer_laws (text : Type) : FileWriterLaws text.
Proof.
  intros fs filepath content fs' [= <-]. simpl. by rewrite String.eqb_refl.
Qed.

Lemma save_then_load_seed :
  ∃ fs' db,
    save_to_file SymbolMappingDatabase.init "seed.json" (one_file "a.json" (Ok None))
    = Ok fs'
    ∧ from_json_file fs' "seed.json" = Ok db
    ∧ dom db = dom SymbolMappingDatabase.init
    ∧ (keyed SymbolMappingDatabase.init → db = SymbolMappingDatabase.init).
Proof.
  eexists.
  destruct (save_then_load (text := option json) SymbolMappingDatabase.init
              "seed.json" (one_file "a.json" (Ok None)) _ eq_refl) as (db & Hdb).
  exists db. split; [reflexivity|exact Hdb].
Defined.

(** ** The order and the size of a ranking *)

Lemma no_nan_score_Forall (l : list RankedCandidate.t) :
  no_nan_score l = true →
  Forall (λ rc, Float.is_nan (RankedCandidate.combined_score rc) = false) l.
Proof.
  unfold no_nan_score. rewrite forallb_forall, Forall_forall.
  intros Hall c Hc. apply negb_true_iff, Hall. by apply list_elem_of_In.
Qed.

Lemma list_sort_lt_descending (l : list RankedCandidate.t) :
  Forall (λ rc, Float.is_nan (RankedCandidate.combined_score rc) = false) l →
  StronglySorted (descending RankedCandidate.combined_score)
    (list_sort RankedCandidate.lt l).
Proof.
  intros Hl.
  apply (list_sort_sorted _ _
           (λ rc, Float.is_nan (RankedCandidate.combined_score rc) = false)); [| | |done].
  - intros a b Ha Hb Hlt. unfold descending. by apply float_leb_total.
  - intros a b Hlt. unfold descending. by apply float_ltb_leb.
  - intros a b c Hab Hbc. unfold descending in *. by eapply float_leb_trans.
Qed.

(** X10: when no score of a ranking is a NaN, its suggestions are in
    descending order of combined score, and suggestions whose scores compare
    equal are in the order in which they were generated: that of the
    selected symbols, then that of the ranked candidates. This holds for
    both entry points. *)
Theorem ranking_sorted_by_score `{NumpyOps} (self : CandidateRanker.t)
    (top_k_symbols : list (Z * float)) (k : Z) :
  let out := rank_candidates_from_top_k self top_k_symbols k in
  (no_nan_score out = true →
     StronglySorted (descending RankedCandidate.combined_score) out
     ∧ ∀ p, filter (tied RankedCandidate.combined_score p) out
            = filter (tied RankedCandidate.combined_score p)
                (top_k_symbols ≫= suggestions_for self k))
  ∧ (∀ vision_predictions top_k out',
       rank_candidates self vision_predictions top_k k = Ok out' →
       no_nan_score out' = true →
       StronglySorted (descending RankedCandidate.combined_score) out'
       ∧ ∃ selected,
           top_k_selection vision_predictions top_k = Ok selected
           ∧ ∀ p, filter (tied RankedCandidate.combined_score p) out'
                  = filter (tied RankedCandidate.combined_score p)
                      (selected
                         ≫= suggestions_for_in (dtype_of vision_predictions) self k)).
Proof.
  intros out.
  assert (∀ generated,
    no_nan_score (list_sort RankedCandidate.lt generated) = true →
    StronglySorted (descending RankedCandidate.combined_score)
      (list_sort RankedCandidate.lt generated)
    ∧ ∀ p, filter (tied RankedCandidate.combined_score p)
             (list_sort RankedCandidate.lt generated)
           = filter (tied RankedCandidate.combined_score p) generated) as Hsorted.
  { intros generated Hok%no_nan_score_Forall. split.
    - apply list_sort_lt_descending. by rewrite list_sort_perm in Hok.
    - intros p. apply filter_list_sort. intros a b Ha Hb.
      unfold RankedCandidate.lt, Float.gtb. by apply (float_tie_not_ltb _ _ p). }
  split.
  - unfold out. rewrite rank_candidates_from_top_k_sorted. apply Hsorted.
  - intros v ks out' Hout Hok. rewrite rank_candidates_sorted in Hout.
    destruct (top_k_selection v ks) as [selected|]; simpl in Hout; [|done].
    injection Hout as <-. destruct (Hsorted _ Hok) as [Hdesc Hties].
    split; [done|]. by exists selected.
Qed.

Lemma ranking_sorted_by_score_sample :
  StronglySorted (descending RankedCandidate.combined_score)
    (rank_candidates_from_top_k default_ranker
       [(77, Float.lit 3 1); (1, Float.lit 85 2); (3, Float.lit 5 1)] 3).
Proof.
  apply (ranking_sorted_by_score (H := sample_numpy) default_ranker
           [(77, Float.lit 3 1); (1, Float.lit 85 2); (3, Float.lit 5 1)] 3).
  reflexivity.
Defined.




Lemma filter_suggestions_for (self : CandidateRanker.t) (k : Z) (symbol_id : Z)
    (pairs : list (Z * float)) :
  filter (λ rc, RankedCandidate.symbol_class_id rc = symbol_id)
    (pairs ≫= suggestions_for self k)
  = filter (λ p, p.1 = symbol_id) pairs ≫= suggestions_for self k.
Proof.
  induction pairs as [|[i c] l IH]; [done|].
  rewrite bind_cons, filter_app, IH, (filter_cons _ (i, c)). simpl.
  assert (Forall (λ rc, RankedCandidate.symbol_class_id rc = i)
            (suggestions_for self k (i, c))) as Hall.
  { apply Forall_forall. intros rc Hrc. by apply suggestions_for_score in Hrc as [? _]. }
  destruct (decide (i = symbol_id)) as [->|Hne].
  - rewrite bind_cons. f_equal.
    induction Hall as [|rc rcs Hrc _ IHall]; [done|].
    by rewrite filter_cons, decide_True, IHall.
  - rewrite filter_none; [done|]. eapply Forall_impl; [exact Hall|].
    simpl. congruence.
Qed.

(** X12: a selected symbol whose ranked candidates are not empty has for
    suggestions those of its first [top_k_candidates_per_symbol] ranked
    candidates, each with the symbol, the confidence and the formula's
    score: as many as the limit or as there are candidates, and none when
    the limit is 0. *)
Theorem mapped_symbol_suggestions (self : CandidateRanker.t) (symbol_id : Z)
    (top_k_symbols : list (Z * float)) (k : Z) (ranked : list LaTeXCandidate.t) :
  get_ranked_candidates (mapping_db self) symbol_id = ranked → ranked ≠ [] →
  let suggestion (confidence : float) (cand : LaTeXCandidate.t) :=
    RankedCandidate.make
      (LaTeXCandidate.command cand) symbol_id confidence
      (LaTeXCandidate.math_priority cand)
      (vision_weight self * confidence
       + math_weight self * LaTeXCandidate.math_priority cand)%flt
      (LaTeXCandidate.context cand) (LaTeXCandidate.description cand) in
  filter (λ rc, RankedCandidate.symbol_class_id rc = symbol_id)
    (rank_candidates_from_top_k self top_k_symbols k)
  ≡ₚ (filter (λ p, p.1 = symbol_id) top_k_symbols
      ≫= λ p, suggestion p.2 <$> slice_to k ranked)
  ∧ (0 ≤ k → length (slice_to k ranked) = Z.to_nat (Z.min k (Z.of_nat (length ranked))))
  ∧ (k = 0 →
     filter (λ rc, RankedCandidate.symbol_class_id rc = symbol_id)
       (rank_candidates_from_top_k self top_k_symbols k) = []).
Proof.
  intros Hranked Hne suggestion.
  assert (∀ p, p.1 = symbol_id →
    suggestions_for self k p = suggestion p.2 <$> slice_to k ranked) as Hfor.
  { intros [i c] Hi. simpl in Hi. subst i. unfold suggestions_for. simpl.
    rewrite Hranked. destruct ranked as [|cand l]; [done|].
    apply list_fmap_ext. intros _ x _. unfold scored, suggestion.
    by rewrite (float_mul_comm c), (float_mul_comm (LaTeXCandidate.math_priority x)). }
  assert (filter (λ rc, RankedCandidate.symbol_class_id rc = symbol_id)
            (rank_candidates_from_top_k self top_k_symbols k)
          ≡ₚ (filter (λ p, p.1 = symbol_id) top_k_symbols
              ≫= λ p, suggestion p.2 <$> slice_to k ranked)) as Hperm.
  { rewrite rank_candidates_from_top_k_perm, filter_suggestions_for.
    induction top_k_symbols as [|p l IH]; [done|].
    rewrite filter_cons. destruct (decide (p.1 = symbol_id)) as [Hp|Hp]; [|done].
    by rewrite !bind_cons, IH, (Hfor p Hp). }
  split; [done|]. split.
  - intros Hk. unfold slice_to, slice_bound. rewrite length_take.
    destruct (k <? 0) eqn:Hneg; lia.
  - intros ->. apply Permutation_nil. rewrite Hperm.
    assert (slice_to 0 ranked = []) as ->.
    { unfold slice_to, slice_bound. simpl.
      by replace (Z.to_nat (Z.min (Z.of_nat (length ranked)) 0)) with 0%nat by lia. }
    clear. induction (filter _ top_k_symbols) as [|p l IH]; [done|].
    by rewrite bind_cons, IH.
Qed.

Lemma mapped_symbol_suggestions_sample :
  RankedCandidate.latex_command <$>
    filter (λ rc, RankedCandidate.symbol_class_id rc = 3)
      (rank_candidates_from_top_k default_ranker
         [(1, Float.lit 85 2); (3, Float.lit 5 1)] 2)
  ≡ₚ ["\mapsto"; "\rightarrow"].
Proof.
  assert (get_ranked_candidates (mapping_db default_ranker) 3 ≠ []) as Hne
    by (vm_compute; discriminate).
  destruct (mapped_symbol_suggestions default_ranker 3
              [(1, Float.lit 85 2); (3, Float.lit 5 1)] 2 _ eq_refl Hne) as [Hperm _].
  rewrite Hperm. reflexivity.
Defined.

(** X13: a symbol whose mapping has no candidate is treated as a symbol
    without mapping: each selection of it yields the placeholder. *)
Theorem empty_mapping_placeholder (self : CandidateRanker.t) (symbol_id : Z)
    (mapping : SymbolMapping.t) (top_k_symbols : list (Z * float)) (k : Z) :
  get_mapping (mapping_db self) symbol_id = Some mapping →
  SymbolMapping.latex_candidates mapping = [] →
  filter (λ rc, RankedCandidate.symbol_class_id rc = symbol_id)
    (rank_candidates_from_top_k self top_k_symbols k)
  ≡ₚ (λ confidence,
        RankedCandidate.make
          ("\symbol_" +:+ py_str symbol_id) symbol_id confidence (Float.lit 5 1)
          (vision_weight self * confidence + math_weight self * Float.lit 5 1)%flt
          "symbol (no mapping available)"
          (Some ("Symbol class " +:+ py_str symbol_id
                 +:+ " - mapping not yet available")))
     <$> (filter (λ p, p.1 = symbol_id) top_k_symbols).*2.
Proof.
  intros Hmap Hempty.
  rewrite rank_candidates_from_top_k_perm, filter_suggestions_for.
  induction top_k_symbols as [|[i c] l IH]; [done|].
  rewrite filter_cons. simpl. destruct (decide (i = symbol_id)) as [->|Hne]; [|done].
  rewrite bind_cons, IH.
  assert (suggestions_for self k (symbol_id, c) = [placeholder self symbol_id c]) as ->.
  { unfold suggestions_for, get_ranked_candidates. simpl. rewrite Hmap.
    unfold SymbolMapping.get_ranked_candidates. by rewrite Hempty. }
  by rewrite placeholder_score.
Qed.

Lemma empty_mapping_placeholder_sample :
  filter (λ rc, RankedCandidate.symbol_class_id rc = 5)
    (rank_candidates_from_top_k bare_ranker [(5, Float.lit 3 1)] 3)
  ≡ₚ [ RankedCandidate.make "\symbol_5" 5 (Float.lit 3 1) (Float.lit 5 1)
         (Float.lit 38 2) "symbol (no mapping available)"
         (Some "Symbol class 5 - mapping not yet available") ].
Proof.
  apply (empty_mapping_placeholder bare_ranker 5 (SymbolMapping.make 5 "bare" [])
           [(5, Float.lit 3 1)] 3); reflexivity.
Defined.

(** X14: a merge into the store of a ranker does not change its suggestions
    for symbols that had a mapping before the merge. *)
Theorem merge_keeps_suggestions {text : Type} `{JsonCodec text}
    (fs : filesystem text) (filepath : string) (self : CandidateRanker.t)
    (top_k_symbols : list (Z * float)) (k : Z) :
  Forall (λ p, is_Some (get_mapping (mapping_db self) p.1)) top_k_symbols →
  rank_candidates_from_top_k
    (with_store self (load_full_mapping fs filepath (mapping_db self)).2)
    top_k_symbols k
  = rank_candidates_from_top_k self top_k_symbols k.
Proof.
  intros Hall. rewrite !rank_candidates_from_top_k_sorted. f_equal.
  induction Hall as [|p l [m Hm] _ IH]; [done|].
  rewrite !bind_cons, IH. f_equal.
  unfold suggestions_for, get_ranked_candidates, get_mapping in *. simpl.
  by rewrite (load_full_mapping_preserves _ _ _ _ _ Hm), Hm.
Qed.

Lemma merge_keeps_suggestions_sample :
  rank_candidates_from_top_k
    (with_store default_ranker
       (load_full_mapping (one_file "full.json" (Ok generated_text)) "full.json"
          SymbolMappingDatabase.init).2)
    [(1, Float.lit 85 2); (3, Float.lit 5 1)] 3
  = rank_candidates_from_top_k default_ranker [(1, Float.lit 85 2); (3, Float.lit 5 1)] 3.
Proof.
  apply (merge_keeps_suggestions (one_file "full.json" (Ok generated_text)) "full.json"
           default_ranker).
  apply (bool_decide_unpack _). vm_compute. exact I.
Defined.

(** ** The selection of the symbols of a prediction vector *)

Lemma top_k_selection_normalize `{NumpyOps} (vision_predictions : ndarray) (top_k : Z) :
  top_k_selection vision_predictions top_k
  = (w ← normalize (dtype_of vision_predictions) (flatten vision_predictions);
     let indices := reverse (slice_from (- top_k) (np_argsort w)) in
     confidences ← take_indices w indices;
     Ok (zip (Z.of_nat <$> indices) confidences)).
Proof.
  unfold top_k_selection, normalize.
  destruct (np_min (flatten vision_predictions)) as [lo|]; simpl; [|done].
  destruct (lo <? Float.of_Z 0)%flt; simpl.
  - by destruct (np_max (flatten vision_predictions)).
  - destruct (np_max (flatten vision_predictions)) as [hi|]; simpl; [|done].
    by destruct (hi >? Float.lit 10 1)%flt.
Qed.

Lemma normalize_nonempty `{NumpyOps} (dtype : DType.t) (v : list float) :
  v ≠ [] → ∃ w, normalize dtype v = Ok w ∧ length w = length v.
Proof.
  intros Hv. destruct v as [|x v]; [done|].
  set (v' := x :: v). unfold normalize.
  change (np_min v') with (Ok (foldl minimum x v)).
  change (np_max v') with (Ok (foldl maximum x v)).
  cbn [mbind result_bind].
  destruct (_ <? _)%flt; cbn [mbind result_bind].
  - eexists. split; [done|]. by rewrite !length_fmap.
  - destruct (_ >? _)%flt; cbn [mbind result_bind]; eexists; (split; [done|]); [|done].
    by rewrite !length_fmap.
Qed.

Lemma take_indices_in_range (w : list float) (indices : list nat) :
  Forall (λ i, (i < length w)%nat) indices →
  take_indices w indices = Ok (value_at w <$> indices).
Proof.
  unfold take_indices. induction 1 as [|i l Hi _ IH]; [done|].
  apply lookup_lt_is_Some in Hi as [x Hx].
  assert (value_at w i = x) as Hd by (unfold value_at; by rewrite Hx).
  rewrite fmap_cons, Hd. cbn [rmap]. rewrite Hx. cbn [mbind result_bind].
  by rewrite IH.
Qed.

Lemma zip_fmap_same {A B C} (f : A → B) (g : A → C) (l : list A) :
  zip (f <$> l) (g <$> l) = (λ a, (f a, g a)) <$> l.
Proof.
  induction l as [|a l IH]; [done|].
  rewrite !fmap_cons. cbn [zip_with]. by rewrite IH.
Qed.

Section Selection.
Context `{NumpyLaws}.

Lemma argsort_in_range (w : list float) :
  Forall (λ i, (i < length w)%nat) (np_argsort w).
Proof.
  apply Forall_forall. intros i Hi. rewrite argsort_positions in Hi.
  apply elem_of_seq in Hi. lia.
Qed.

Lemma argsort_NoDup (w : list float) : NoDup (np_argsort w).
Proof. rewrite argsort_positions. apply NoDup_seq. Qed.

Lemma argsort_length (w : list float) : length (np_argsort w) = length w.
Proof. by rewrite argsort_positions, length_seq. Qed.

(** The selection, for a lawful [argsort]: the selected positions of the
    normalized vector, each with its value. *)
Lemma top_k_selection_positions (vision_predictions : ndarray) (top_k : Z)
    (w : list float) :
  normalize (dtype_of vision_predictions) (flatten vision_predictions) = Ok w →
  top_k_selection vision_predictions top_k
  = Ok ((λ i, (Z.of_nat i, value_at w i))
          <$> reverse (slice_from (- top_k) (np_argsort w))).
Proof.
  intros Hw. rewrite top_k_selection_normalize, Hw. simpl.
  rewrite take_indices_in_range; [simpl; by rewrite zip_fmap_same|].
  apply Forall_forall. intros i Hi. rewrite elem_of_reverse in Hi.
  unfold slice_from in Hi. apply subseteq_drop in Hi.
  by apply (proj1 (Forall_forall _ _) (argsort_in_range w)).
Qed.

End Selection.

(** The selected pairs are positions of the normalized vector with their
    values. *)
Lemma selection_count_aux `{NumpyLaws} (vision_predictions : ndarray) (top_k_symbols : Z)
    (w : list float) :
  normalize (dtype_of vision_predictions) (flatten vision_predictions) = Ok w →
  ∃ selected,
    top_k_selection vision_predictions top_k_symbols = Ok selected
    ∧ Forall (λ p, 0 ≤ p.1 ∧ w !! Z.to_nat p.1 = Some p.2) selected.
Proof.
  intros Hw. eexists. split; [by apply top_k_selection_positions|].
  apply Forall_fmap, Forall_forall. intros i Hi. simpl. split; [lia|].
  rewrite Nat2Z.id. rewrite elem_of_reverse in Hi. unfold slice_from in Hi.
  apply subseteq_drop in Hi.
  apply (proj1 (Forall_forall _ _) (argsort_in_range w)) in Hi.
  apply lookup_lt_is_Some in Hi as [x Hx]. unfold value_at. by rewrite Hx.
Qed.

(** X15: for a vector that is not empty and an [argsort] that returns the
    positions of its argument, the selection does not raise: it yields
    distinct symbol ids, each a position of the vector, with the value the
    normalized vector has there; [top_k_symbols] of them when the vector has
    as many classes, and all the classes when [top_k_symbols] is 0. *)
Theorem selection_count `{NumpyLaws} (vision_predictions : ndarray) (top_k_symbols : Z) :
  flatten vision_predictions ≠ [] →
  ∃ w selected,
    normalize (dtype_of vision_predictions) (flatten vision_predictions) = Ok w
    ∧ length w = length (flatten vision_predictions)
    ∧ top_k_selection vision_predictions top_k_symbols = Ok selected
    ∧ NoDup selected.*1
    ∧ Forall (λ p, 0 ≤ p.1 ∧ w !! Z.to_nat p.1 = Some p.2) selected
    ∧ (1 ≤ top_k_symbols →
       Z.of_nat (length selected) = Z.min top_k_symbols (Z.of_nat (length w)))
    ∧ (top_k_symbols = 0 → length selected = length w).
Proof.
  intros Hne. destruct (normalize_nonempty (dtype_of vision_predictions) _ Hne) as (w & Hw & Hlen).
  eexists w, _. split; [done|]. split; [done|].
  split; [by apply top_k_selection_positions|].
  set (indices := reverse (slice_from (- top_k_symbols) (np_argsort w))).
  assert (indices ⊆ np_argsort w) as Hsub.
  { intros i Hi. unfold indices in Hi. rewrite elem_of_reverse in Hi.
    by apply subseteq_drop in Hi. }
  split; [|split; [|split]].
  - rewrite <- list_fmap_compose.
    apply NoDup_fmap_2_strong; [intros x y _ _ Hxy; simpl in Hxy; lia|].
    unfold indices. rewrite reverse_Permutation.
    unfold slice_from. eapply sublist_NoDup; [apply argsort_NoDup|apply sublist_drop].
  - apply Forall_fmap, Forall_forall. intros i Hi. simpl. split; [lia|].
    rewrite Nat2Z.id. apply Hsub in Hi.
    apply (proj1 (Forall_forall _ _) (argsort_in_range w)) in Hi.
    apply lookup_lt_is_Some in Hi as [x Hx]. unfold value_at. by rewrite Hx.
  - intros Hk. rewrite length_fmap. unfold indices, slice_from, slice_bound.
    rewrite length_reverse, length_drop, argsort_length.
    destruct (- top_k_symbols <? 0) eqn:Hneg; lia.
  - intros ->. rewrite length_fmap. unfold indices, slice_from, slice_bound.
    rewrite length_reverse, length_drop, argsort_length. simpl. lia.
Qed.

Lemma StronglySorted_app_elem {A} (R : A → A → Prop) (l1 l2 : list A) :
  StronglySorted R (l1 ++ l2) →
  StronglySorted R l2 ∧ ∀ x y, x ∈ l1 → y ∈ l2 → R x y.
Proof.
  induction l1 as [|a l1 IH]; simpl; intros Hs.
  - split; [done|]. intros x y Hx. by apply elem_of_nil in Hx.
  - apply StronglySorted_inv in Hs as [Hs Ha]. destruct (IH Hs) as [H2 Hxy].
    split; [done|]. intros x y [->|Hx]%elem_of_cons Hy; [|by apply Hxy].
    apply (proj1 (Forall_forall _ _) Ha), elem_of_app. by right.
Qed.

Lemma StronglySorted_fmap_elem {A B} (f : A → B) (R1 : A → A → Prop)
    (R2 : B → B → Prop) (l : list A) :
  (∀ x y, x ∈ l → y ∈ l → R1 x y → R2 (f x) (f y)) →
  StronglySorted R1 l → StronglySorted R2 (f <$> l).
Proof.
  intros Himpl Hs. induction Hs as [|a l Hs IH Ha]; [constructor|].
  rewrite fmap_cons. constructor.
  - apply IH. intros x y Hx Hy. apply Himpl; by apply list_elem_of_further.
  - apply Forall_fmap, Forall_forall. intros y Hy. simpl.
    apply Himpl; [apply list_elem_of_here|by apply list_elem_of_further|].
    by apply (proj1 (Forall_forall _ _) Ha).
Qed.

Lemma fst_imap_pair {A} (l : list A) (g : nat → nat) :
  (imap (λ i x, (g i, x)) l).*1 = g <$> seq 0 (length l).
Proof.
  revert g. induction l as [|a l IH]; intros g; [done|].
  simpl. f_equal. etrans; [apply (IH (g ∘ S))|].
  by rewrite <- fmap_S_seq, <- list_fmap_compose.
Qed.

(** The sample [argsort] is lawful. *)
#[local] Instance sample_numpy_laws : @NumpyLaws sample_numpy.
Proof.
  split.
  - intros a. simpl. rewrite list_sort_perm.
    replace ((imap pair a).*1) with (seq 0 (length a)); [done|]. symmetry.
    etrans; [apply (fst_imap_pair a id)|apply list_fmap_id].
  - intros a Ha. simpl.
    apply (StronglySorted_fmap_elem fst (λ p q, (p.2 <=? q.2)%flt = true)).
    + intros p q Hp Hq Hle x y Hx Hy.
      rewrite list_sort_perm in Hp, Hq.
      apply elem_of_lookup_imap_1 in Hp as (i & x' & -> & Hx').
      apply elem_of_lookup_imap_1 in Hq as (j & y' & -> & Hy').
      simpl in *. congruence.
    + apply (list_sort_sorted _ _ (λ p, Float.is_nan p.2 = false)).
      * intros p q Hp Hq. by apply float_leb_total.
      * intros p q. apply float_ltb_leb.
      * intros p q r. apply float_leb_trans.
      * apply Forall_forall. intros p (i & x & -> & Hx)%elem_of_lookup_imap_1.
        simpl. apply (proj1 (Forall_forall _ _) Ha). by eapply list_elem_of_lookup_2.
Qed.

Lemma selection_count_sample :
  ∃ w selected,
    normalize DType.float64 sample_vector = Ok w
    ∧ length w = length sample_vector
    ∧ top_k_selection sample_predictions 0 = Ok selected
    ∧ NoDup selected.*1
    ∧ Forall (λ p, 0 ≤ p.1 ∧ w !! Z.to_nat p.1 = Some p.2) selected
    ∧ (1 ≤ 0 → Z.of_nat (length selected) = Z.min 0 (Z.of_nat (length w)))
    ∧ (0 = 0 → length selected = length w).
Proof.
  apply (selection_count (H := sample_numpy) sample_predictions 0). discriminate.
Defined.

Lemma float_leb_not_ltb (x y : float) : (x <=? y)%flt = true → (y <? x)%flt = false.
Proof.
  unfold Float.leb, Float.ltb, SFleb, SFltb. rewrite (float_compare_antisym x y).
  by destruct (SFcompare x y) as [[]|].
Qed.

Lemma float_leb_not_nan (x y : float) :
  (x <=? y)%flt = true → Float.is_nan x = false ∧ Float.is_nan y = false.
Proof. by destruct x as [[]|[]| |[] ? ?], y as [[]|[]| |[] ? ?]. Qed.

Lemma foldl_minimum_elem (x : float) (l : list float) : foldl minimum x l ∈ x :: l.
Proof.
  revert x. induction l as [|y l IH]; intros x; simpl; [apply list_elem_of_here|].
  specialize (IH (minimum x y)).
  apply elem_of_cons in IH as [->|IH]; [|by do 2 apply list_elem_of_further].
  unfold minimum. destruct (Float.is_nan x); [apply list_elem_of_here|].
  destruct (Float.is_nan y); [apply list_elem_of_further, list_elem_of_here|].
  destruct (y <? x)%flt;
    [apply list_elem_of_further, list_elem_of_here|apply list_elem_of_here].
Qed.

Lemma foldl_maximum_elem (x : float) (l : list float) : foldl maximum x l ∈ x :: l.
Proof.
  revert x. induction l as [|y l IH]; intros x; simpl; [apply list_elem_of_here|].
  specialize (IH (maximum x y)).
  apply elem_of_cons in IH as [->|IH]; [|by do 2 apply list_elem_of_further].
  unfold maximum. destruct (Float.is_nan x); [apply list_elem_of_here|].
  destruct (Float.is_nan y); [apply list_elem_of_further, list_elem_of_here|].
  destruct (y >? x)%flt;
    [apply list_elem_of_further, list_elem_of_here|apply list_elem_of_here].
Qed.

Lemma is_probabilities_Forall (v : list float) :
  is_probabilities v = true →
  Forall (λ x, (Float.of_Z 0 <=? x)%flt = true ∧ (x <=? Float.lit 10 1)%flt = true) v.
Proof.
  unfold is_probabilities. rewrite forallb_forall, Forall_forall.
  intros Hall x Hx. apply andb_prop, Hall. by apply list_elem_of_In.
Qed.

Lemma normalize_probabilities `{NumpyOps} (dtype : DType.t) (v : list float) :
  v ≠ [] → is_probabilities v = true → normalize dtype v = Ok v.
Proof.
  intros Hne Hv%is_probabilities_Forall. destruct v as [|x v]; [done|].
  set (v' := x :: v) in *. unfold normalize.
  change (np_min v') with (Ok (foldl minimum x v)).
  change (np_max v') with (Ok (foldl maximum x v)).
  cbn [mbind result_bind].
  destruct (proj1 (Forall_forall _ _) Hv _ (foldl_minimum_elem x v)) as [Hlo _].
  destruct (proj1 (Forall_forall _ _) Hv _ (foldl_maximum_elem x v)) as [_ Hhi].
  rewrite (float_leb_not_ltb _ _ Hlo). cbn [mbind result_bind].
  pose proof (float_leb_not_ltb _ _ Hhi) as Hgt.
  unfold Float.ltb in Hgt. unfold Float.gtb. by rewrite Hgt.
Qed.

(** X16: a vector of values between 0 and 1, of any dtype, is not
    normalized: the confidence of each selected symbol is the value the
    vector has for it. *)
Theorem probabilities_kept `{NumpyLaws} (dtype : DType.t) (v : list float)
    (top_k_symbols : Z) :
  v ≠ [] → is_probabilities v = true →
  normalize dtype v = Ok v
  ∧ ∃ selected,
      top_k_selection (Array1 dtype v) top_k_symbols = Ok selected
      ∧ Forall (λ p, 0 ≤ p.1 ∧ v !! Z.to_nat p.1 = Some p.2) selected.
Proof.
  intros Hne Hv. pose proof (normalize_probabilities dtype v Hne Hv) as Hnorm.
  split; [done|].
  destruct (selection_count_aux (Array1 dtype v) top_k_symbols v)
    as (selected & Hsel & Hall); [done|]. by exists selected.
Qed.

Lemma probabilities_kept_sample :
  normalize DType.float64 sample_vector = Ok sample_vector
  ∧ ∃ selected,
      top_k_selection (Array1 DType.float64 sample_vector) 2 = Ok selected
      ∧ Forall (λ p, 0 ≤ p.1 ∧ sample_vector !! Z.to_nat p.1 = Some p.2) selected.
Proof.
  apply (probabilities_kept (H := sample_numpy) DType.float64 sample_vector 2);
    [discriminate|vm_compute; reflexivity].
Defined.

(** X17: when the normalized vector holds no NaN and [argsort] is lawful,
    the selection comes in descending order of confidence, and no class left
    out has a larger value than a selected one. *)
Theorem selection_takes_largest `{NumpyLaws} (vision_predictions : ndarray)
    (top_k_symbols : Z) (w : list float) :
  normalize (dtype_of vision_predictions) (flatten vision_predictions) = Ok w →
  Forall (λ x, Float.is_nan x = false) w →
  ∃ selected,
    top_k_selection vision_predictions top_k_symbols = Ok selected
    ∧ StronglySorted (λ p q, (q.2 <=? p.2)%flt = true) selected
    ∧ ∀ j x p, w !! j = Some x → Z.of_nat j ∉ selected.*1 → p ∈ selected →
        (x <=? p.2)%flt = true.
Proof.
  intros Hw Hnan. eexists. split; [by apply top_k_selection_positions|].
  pose proof (argsort_ascending w Hnan) as Hasc.
  pose proof (argsort_in_range w) as Hrange.
  unfold slice_from. set (n := slice_bound _ _).
  rewrite <- (take_drop n (np_argsort w)) in Hasc.
  apply StronglySorted_app_elem in Hasc as [Hsorted Hless].
  assert (∀ i, i ∈ drop n (np_argsort w) → w !! i = Some (value_at w i)) as Hval.
  { intros i Hi%subseteq_drop.
    apply (proj1 (Forall_forall _ _) Hrange) in Hi.
    apply lookup_lt_is_Some in Hi as [x Hx]. unfold value_at. by rewrite Hx. }
  split.
  - apply (StronglySorted_fmap_elem _
             (flip (λ i j : nat, ∀ x y, w !! i = Some x → w !! j = Some y →
                                   (x <=? y)%flt = true))).
    + intros i j Hi Hj Hij. rewrite elem_of_reverse in Hi, Hj.
      change ((value_at w j <=? value_at w i)%flt = true).
      apply Hij; by apply Hval.
    + by apply StronglySorted_reverse.
  - intros j x p Hx Hj (i & -> & Hi)%list_elem_of_fmap.
    rewrite elem_of_reverse in Hi.
    change ((x <=? value_at w i)%flt = true).
    assert (j ∈ np_argsort w) as Hin.
    { rewrite argsort_positions. apply elem_of_seq.
      apply lookup_lt_Some in Hx. lia. }
    rewrite <- (take_drop n (np_argsort w)) in Hin.
    apply elem_of_app in Hin as [Hin|Hin].
    + apply (Hless j i Hin Hi); [done|by apply Hval].
    + destruct Hj. rewrite <- list_fmap_compose. apply list_elem_of_fmap.
      exists j. split; [done|]. by apply elem_of_reverse.
Qed.

Lemma selection_takes_largest_sample :
  ∃ selected,
    top_k_selection sample_predictions 2 = Ok selected
    ∧ StronglySorted (λ p q, (q.2 <=? p.2)%flt = true) selected
    ∧ ∀ j x p, sample_vector !! j = Some x → Z.of_nat j ∉ selected.*1 → p ∈ selected →
        (x <=? p.2)%flt = true.
Proof.
  apply (selection_takes_largest (H := sample_numpy) sample_predictions 2 sample_vector).
  - vm_compute; reflexivity.
  - repeat constructor.
Defined.

(** ** The facade *)

Lemma ranking_descending (self : CandidateRanker.t) (top_k_symbols : list (Z * float))
    (k : Z) :
  no_nan_score (rank_candidates_from_top_k self top_k_symbols k) = true →
  StronglySorted (descending RankedCandidate.combined_score)
    (rank_candidates_from_top_k self top_k_symbols k).
Proof.
  intros Hok%no_nan_score_Forall. rewrite rank_candidates_from_top_k_sorted in *.
  apply list_sort_lt_descending. by rewrite list_sort_perm in Hok.
Qed.


Lemma slice_to_length {A} (i : Z) (l : list A) :
  length (slice_to i l) = slice_bound (length l) i.
Proof.
  unfold slice_to. rewrite length_take. unfold slice_bound. lia.
Qed.

(** X18: [suggest_from_top_k_symbols] returns the head of the ranking with
    three candidates per symbol: [top_k] suggestions or the whole ranking
    when [top_k] is not negative, all but the last [- top_k] ones when it
    is; when no score is a NaN no suggestion left out has a higher score
    than one returned. *)
Theorem suggest_from_top_k_symbols_head {renderer : Type}
    (self : SemanticSuggestionEngine.t renderer) (top_k_symbols : list (Z * float))
    (top_k : Z) :
  let ranked :=
    rank_candidates_from_top_k (SemanticSuggestionEngine.ranker self) top_k_symbols 3 in
  let out := suggest_from_top_k_symbols self top_k_symbols top_k in
  ∃ rest,
    ranked = out ++ rest
    ∧ (0 ≤ top_k → Z.of_nat (length out) = Z.min top_k (Z.of_nat (length ranked)))
    ∧ (top_k < 0 → Z.of_nat (length out) = Z.max 0 (Z.of_nat (length ranked) + top_k))
    ∧ (no_nan_score ranked = true →
       ∀ p q, p ∈ out → q ∈ rest → descending RankedCandidate.combined_score p q).
Proof.
  intros ranked out. unfold out, suggest_from_top_k_symbols. fold ranked.
  exists (drop (slice_bound (length ranked) top_k) ranked).
  split; [|split; [|split]].
  - unfold slice_to. by rewrite take_drop.
  - intros Hk. rewrite slice_to_length. unfold slice_bound.
    destruct (top_k <? 0) eqn:Hneg; lia.
  - intros Hk. rewrite slice_to_length. unfold slice_bound.
    destruct (top_k <? 0) eqn:Hneg; lia.
  - intros Hok p q Hp Hq. apply ranking_descending in Hok. fold ranked in Hok.
    unfold slice_to in Hp.
    rewrite <- (take_drop (slice_bound (length ranked) top_k) ranked) in Hok.
    clear -Hok Hp Hq.
    induction (take _ ranked) as [|a l IH]; [by apply elem_of_nil in Hp|].
    simpl in Hok. apply StronglySorted_inv in Hok as [Hl Ha].
    apply elem_of_cons in Hp as [->|Hp]; [|by apply IH].
    apply (proj1 (Forall_forall _ _) Ha), elem_of_app. by right.
Qed.

Lemma suggest_from_top_k_symbols_head_sample :
  ∃ rest,
    rank_candidates_from_top_k default_ranker sample_pairs 3
    = suggest_from_top_k_symbols sample_engine sample_pairs 2 ++ rest
    ∧ ∀ p q, p ∈ suggest_from_top_k_symbols sample_engine sample_pairs 2 → q ∈ rest →
        descending RankedCandidate.combined_score p q.
Proof.
  destruct (suggest_from_top_k_symbols_head sample_engine sample_pairs 2)
    as (rest & Hrest & _ & _ & Hscore).
  exists rest. split; [exact Hrest|]. apply Hscore. reflexivity.
Defined.





(** X20: an engine that [create_suggestion_engine] returns has the given
    weights, which the check of the ranker did not find out of tolerance, no
    renderer, and a ranker that reads the engine's own store; the store
    holds every seed mapping whatever the file holds; at most a warning is
    printed, and then the store is the seed store. With weights the check
    finds out of tolerance no engine is returned; with other weights and no
    file to load, the engine on the seed store is returned and nothing is
    printed. *)
Theorem create_suggestion_engine_result {text : Type} `{JsonCodec text} {renderer : Type}
    (fs : filesystem text) (full_mapping_path : string)
    (vision_weight math_weight : float) (load_full_mapping : bool) :
  let created :=
    create_suggestion_engine (renderer := renderer) fs full_mapping_path
      vision_weight math_weight load_full_mapping in
  let out_of_tolerance :=
    (Float.abs (vision_weight + math_weight - Float.lit 10 1) >? Float.lit 1 6)%flt in
  (∀ engine, created.1 = Ok engine →
     out_of_tolerance = false
     ∧ SemanticSuggestionEngine.ranker engine
       = CandidateRanker.make (SemanticSuggestionEngine.mapping_db engine)
           vision_weight math_weight
     ∧ SemanticSuggestionEngine.renderer_ engine = None
     ∧ (∀ id mapping, SymbolMappingDatabase.init !! id = Some mapping →
          SemanticSuggestionEngine.mapping_db engine !! id = Some mapping)
     ∧ (created.2 = []
        ∨ ∃ e, created.2 = [SemanticSuggestionEngine.Warning_could_not_load e]
               ∧ SemanticSuggestionEngine.mapping_db engine = SymbolMappingDatabase.init))
  ∧ (out_of_tolerance = true → ∀ engine, created.1 ≠ Ok engine)
  ∧ (out_of_tolerance = false →
     load_full_mapping && path_exists fs full_mapping_path = false →
     created
     = (Ok (SemanticSuggestionEngine.make SymbolMappingDatabase.init
              (CandidateRanker.make SymbolMappingDatabase.init vision_weight math_weight)
              None), [])).
Proof.
  intros created out_of_tolerance.
  assert (∀ db out,
    match CandidateRanker.init (Some db) vision_weight math_weight with
    | Raise e => (Raise e, out)
    | Ok ranker =>
        let '(engine, out') :=
          SemanticSuggestionEngine.init (renderer := renderer) fs full_mapping_path
            (Some db) (Some ranker) None true in
        (engine, out ++ out')
    end
    = if out_of_tolerance then (Raise ValueError, out)
      else (Ok (SemanticSuggestionEngine.make db
                  (CandidateRanker.make db vision_weight math_weight) None), out)) as Hbuild.
  { intros db out. unfold CandidateRanker.init. fold out_of_tolerance.
    destruct out_of_tolerance; [done|]. simpl. by rewrite app_nil_r. }
  unfold created, create_suggestion_engine.
  destruct (load_full_mapping && path_exists fs full_mapping_path) eqn:Hload.
  - unfold SymbolMappingDatabase.load_full_mapping.
    destruct (from_json_file fs full_mapping_path) as [full_db|e].
    + rewrite Hbuild. destruct out_of_tolerance; simpl.
      * split; [done|]. split; [done|]. done.
      * split; [|split; done]. intros engine [= <-]. simpl.
        repeat split; [|by left]. intros id mapping Hid.
        by rewrite merge_lookup, Hid.
    + assert (e = Untyped ∨ e ≠ Untyped) as [->|He] by (destruct e; auto).
      * simpl. split; [done|]. split; done.
      * assert (∀ A (x y : A), match e with Untyped => x | _ => y end = y) as Hcatch
          by (intros; by destruct e).
        rewrite Hcatch, Hbuild. destruct out_of_tolerance; simpl.
        -- split; [done|]. split; done.
        -- split; [|split; done]. intros engine [= <-]. simpl.
           repeat split; [done|]. right. by exists e.
  - rewrite Hbuild. destruct out_of_tolerance; simpl.
    + split; [done|]. split; done.
    + split; [|split; done]. intros engine [= <-]. simpl.
      repeat split; [done|]. by left.
Qed.

Lemma create_suggestion_engine_result_malformed :
  ∃ engine : SemanticSuggestionEngine.t (),
    (create_suggestion_engine (one_file "full.json" (Ok None)) "full.json"
       (Float.lit 6 1) (Float.lit 4 1) true).1 = Ok engine
    ∧ SemanticSuggestionEngine.ranker engine
      = CandidateRanker.make (SemanticSuggestionEngine.mapping_db engine)
          (Float.lit 6 1) (Float.lit 4 1)
    ∧ ∀ id mapping, SymbolMappingDatabase.init !! id = Some mapping →
        SemanticSuggestionEngine.mapping_db engine !! id = Some mapping.
Proof.
  eexists. split; [reflexivity|].
  destruct (create_suggestion_engine_result (renderer := ())
              (one_file "full.json" (Ok None)) "full.json"
              (Float.lit 6 1) (Float.lit 4 1) true) as (Hbuilt & _ & _).
  destruct (Hbuilt _ eq_refl) as (_ & Hranker & _ & Hseed & _).
  split; [exact Hranker|exact Hseed].
Defined.

(** ** The generator of the full database *)

Lemma occurs_app (c : ascii) (s t : string) :
  occurs c (s +:+ t) = occurs c s || occurs c t.
Proof.
  induction s as [|d s IH]; [done|]. simpl. by rewrite IH, orb_assoc.
Qed.

Lemma prefix_occurs (c : ascii) (old s : string) :
  String.prefix old s = true → occurs c old = true → occurs c s = true.
Proof.
  revert s. induction old as [|a old IH]; intros s; [done|].
  destruct s as [|b s]; [done|]. simpl.
  destruct (Ascii.ascii_dec a b) as [->|Hne]; [|done].
  intros Hpre. destruct (Ascii.eqb c b); [done|]. simpl. by apply IH.
Qed.

Lemma replace_from_absent (c : ascii) (old new s : string) :
  occurs c old = true → occurs c s = false → replace_from old new 0 s = s.
Proof.
  intros Hold. induction s as [|d s IH]; [done|].
  intros Hs. cbn [replace_from].
  destruct (String.prefix old (String d s)) eqn:Hpre.
  - by rewrite (prefix_occurs c _ _ Hpre Hold) in Hs.
  - simpl in Hs. apply orb_false_elim in Hs as [_ Hs]. by rewrite IH.
Qed.

Lemma replace_closing_absent (s : string) :
  occurs "}" s = false → replace_from "}" "" 0 s = s.
Proof. by apply replace_from_absent. Qed.

Lemma replace_closing_last (s : string) :
  occurs "}" s = false → replace_from "}" "" 0 (s +:+ "}") = s.
Proof.
  induction s as [|d s IH]; [done|]. intros Hs. simpl in Hs.
  apply orb_false_elim in Hs as [Hd Hs].
  change (String d s +:+ "}") with (String d (s +:+ "}")). cbn [replace_from String.prefix].
  destruct (Ascii.ascii_dec "}" d) as [<-|_]; [done|]. by rewrite IH.
Qed.

Lemma replace_closing_none (s : string) :
  occurs "}" (replace_from "}" "" 0 s) = false.
Proof.
  induction s as [|d s IH]; [done|]. cbn [replace_from String.prefix].
  destruct (Ascii.ascii_dec "}" d) as [<-|Hne].
  { assert (String.prefix "" s = true) as -> by (by destruct s). exact IH. }
  cbn [occurs]. rewrite IH, orb_false_r. by apply Ascii.eqb_neq.
Qed.

Lemma prefix_backslash (s : string) : String.prefix "\" ("\" +:+ s) = true.
Proof. by destruct s. Qed.

Lemma prefix_empty (s : string) : String.prefix "" s = true.
Proof. by destruct s. Qed.

Lemma append_empty_l (s : string) : "" +:+ s = s.
Proof. reflexivity. Qed.

(** X21: the name of a symbol. A command without a leading backslash is its
    own name; the name of a command with one has no closing brace; when the
    rest of the command has no brace the name is that rest; and the name of
    a font command applied to an argument without braces is the argument. *)
Theorem generate_symbol_name_forms (symbol_id : Z) :
  (∀ latex_command, String.prefix "\" latex_command = false →
     generate_symbol_name latex_command symbol_id = latex_command)
  ∧ (∀ latex_command, String.prefix "\" latex_command = true →
       occurs "}" (generate_symbol_name latex_command symbol_id) = false)
  ∧ (∀ name, occurs "{" name = false → occurs "}" name = false →
       generate_symbol_name ("\" +:+ name) symbol_id = name)
  ∧ (∀ font argument, font ∈ font_commands →
       occurs "{" argument = false → occurs "}" argument = false →
       generate_symbol_name ("\" +:+ font +:+ "{" +:+ argument +:+ "}") symbol_id
       = argument).
Proof.
  split; [|split; [|split]].
  - intros s Hs. unfold generate_symbol_name. by rewrite Hs.
  - intros s Hs. unfold generate_symbol_name. rewrite Hs.
    apply replace_closing_none.
  - intros name Hopen Hclose. unfold generate_symbol_name.
    rewrite prefix_backslash. unfold str_replace. cbn [String.append drop_first].
    repeat first [ rewrite (replace_closing_absent name) by done
                 | rewrite (replace_from_absent "{" _ _ name) by done ].
    done.
  - intros font argument Hfont Hopen Hclose.
    assert (occurs "{" (argument +:+ "}") = false) as Hopen'
      by (by rewrite occurs_app, Hopen).
    unfold font_commands in Hfont. rewrite !elem_of_cons, elem_of_nil in Hfont.
    unfold generate_symbol_name. rewrite prefix_backslash. unfold str_replace.
    destruct Hfont as [->|[->|[->|[->|[->|[]]]]]]; simpl.
    all: repeat first
      [ rewrite prefix_empty
      | rewrite append_empty_l
      | progress cbv beta iota
      | rewrite (replace_closing_last argument) by done
      | rewrite (replace_closing_absent argument) by done
      | rewrite (replace_from_absent "{" _ _ (argument +:+ "}")) by done
      | rewrite (replace_from_absent "{" _ _ argument) by done ].
    all: done.
Qed.

Lemma generate_symbol_name_forms_calligraphic :
  generate_symbol_name ("\" +:+ "mathcal" +:+ "{" +:+ "L" +:+ "}") 300 = "L".
Proof.
  apply (proj2 (proj2 (proj2 (generate_symbol_name_forms 300))) "mathcal" "L");
    [|reflexivity|reflexivity].
  apply (bool_decide_unpack _). vm_compute. exact I.
Defined.

Lemma load_symbols_row_entry (symbols : gmap Z string) (row : result csv_row) :
  load_symbols_row symbols row = (p ← row_entry row; Ok (<[p.1 := p.2]> symbols)).
Proof.
  unfold load_symbols_row, row_entry.
  destruct row as [row|]; [|done]. simpl.
  destruct (row_getitem "symbol_id" row) as [[s|]|]; [|done|done]. simpl.
  destruct (py_int s) as [symbol_id|]; [|done]. simpl.
  by destruct (row_getitem "latex" row) as [[latex|]|].
Qed.

Lemma rfold_load_symbols_row (rows : list (result csv_row)) (pairs : list (Z * string))
    (symbols : gmap Z string) :
  rmap row_entry rows = Ok pairs →
  rfold load_symbols_row symbols rows
  = Ok (foldl (λ acc kv, <[kv.1 := (λ _ v, v) kv.1 kv.2]> acc) symbols pairs).
Proof.
  revert pairs symbols. induction rows as [|row rows IH]; intros pairs symbols.
  - by intros [= <-].
  - cbn [rmap rfold]. rewrite load_symbols_row_entry.
    destruct (row_entry row) as [p|]; [|done]. cbn [mbind result_bind].
    destruct (rmap row_entry rows) as [ps|]; [|done]. cbn [mbind result_bind].
    intros [= <-]. cbn [foldl]. by apply IH.
Qed.

(** X22: [load_symbols_csv] of a file whose rows all have an id and a
    command returns the ids of the rows, each with the command of the last
    row that has the id. *)
Theorem load_symbols_csv_last_row {text : Type} `{CsvReader text}
    (fs : filesystem text) (csv_path : string) (f : text) (pairs : list (Z * string)) :
  read_file fs csv_path = Ok f →
  rmap row_entry (DictReader f) = Ok pairs →
  ∃ symbols,
    load_symbols_csv fs csv_path = Ok symbols
    ∧ (∀ id, is_Some (symbols !! id) ↔ id ∈ pairs.*1)
    ∧ ∀ before id latex after,
        pairs = before ++ (id, latex) :: after → id ∉ after.*1 →
        symbols !! id = Some latex.
Proof.
  intros Hf Hrows. unfold load_symbols_csv. rewrite Hf. cbn [mbind result_bind].
  rewrite (rfold_load_symbols_row _ _ _ Hrows). eexists. split; [done|]. split.
  - intros id. clear Hrows.
    assert (∀ acc : gmap Z string,
      is_Some (foldl (λ acc kv, <[kv.1 := (λ _ v, v) kv.1 kv.2]> acc) acc pairs !! id)
      ↔ is_Some (acc !! id) ∨ id ∈ pairs.*1) as Hall.
    { induction pairs as [|[k v] l IH]; intros acc.
      - simpl. rewrite elem_of_nil. tauto.
      - simpl. rewrite IH, elem_of_cons.
        destruct (decide (id = k)) as [->|Hne].
        + rewrite lookup_insert_eq. split; [auto|]. intros _. left. by eexists.
        + rewrite lookup_insert_ne by done. tauto. }
    rewrite Hall, lookup_empty. split; [|auto].
    intros [[? [=]]|?]; done.
  - intros before id latex after -> Hafter.
    rewrite foldl_app. cbn [foldl].
    etrans; [apply (foldl_insert_notin (λ _ v, v) after _ id Hafter)|].
    apply lookup_insert_eq.
Qed.

Lemma load_symbols_csv_last_row_sample :
  ∃ symbols,
    load_symbols_csv (one_file "symbols.csv" (Ok (None : option json))) "symbols.csv"
    = Ok symbols
    ∧ (∀ id, is_Some (symbols !! id) ↔ id ∈ sample_symbols.*1)
    ∧ ∀ before id latex after,
        sample_symbols = before ++ (id, latex) :: after → id ∉ after.*1 →
        symbols !! id = Some latex.
Proof.
  apply (load_symbols_csv_last_row (one_file "symbols.csv" (Ok (None : option json)))
           "symbols.csv" None sample_symbols); reflexivity.
Defined.

Lemma rfold_raise {A S} (body : S → A → result S) (s : S) (l1 l2 : list A) (a : A)
    (s1 : S) (e : exn) :
  rfold body s l1 = Ok s1 → body s1 a = Raise e →
  rfold body s (l1 ++ a :: l2) = Raise e.
Proof. intros H1 Ha. rewrite rfold_app, H1. simpl. by rewrite Ha. Qed.

(** X23: [load_symbols_csv] raises the exception of the first row that has
    one, whatever the rows after it hold: [KeyError] for a missing column,
    [ValueError] for an id that is not an integer, the exception of the
    reader; and the exception of opening the file. *)
Theorem load_symbols_csv_bad_row {text : Type} `{CsvReader text}
    (fs : filesystem text) (csv_path : string) (e : exn) :
  (read_file fs csv_path = Raise e → load_symbols_csv fs csv_path = Raise e)
  ∧ ∀ f rows bad rest pairs,
      read_file fs csv_path = Ok f →
      DictReader f = rows ++ bad :: rest →
      rmap row_entry rows = Ok pairs →
      row_entry bad = Raise e →
      load_symbols_csv fs csv_path = Raise e
      ∧ (∀ row, bad = Ok row → row_getitem "symbol_id" row = Raise (KeyError "symbol_id") →
           e = KeyError "symbol_id")
      ∧ (∀ row s, bad = Ok row → row_getitem "symbol_id" row = Ok (Some s) →
           py_int s = Raise ValueError → e = ValueError)
      ∧ (∀ row s id, bad = Ok row → row_getitem "symbol_id" row = Ok (Some s) →
           py_int s = Ok id → row_getitem "latex" row = Raise (KeyError "latex") →
           e = KeyError "latex").
Proof.
  split.
  - intros Hf. unfold load_symbols_csv. by rewrite Hf.
  - intros f rows bad rest pairs Hf Hrows Hgood Hbad. split.
    + unfold load_symbols_csv. rewrite Hf. cbn [mbind result_bind]. rewrite Hrows.
      eapply rfold_raise; [by apply rfold_load_symbols_row|].
      by rewrite load_symbols_row_entry, Hbad.
    + unfold row_entry in Hbad. repeat split.
      * intros row -> Hid. simpl in Hbad. rewrite Hid in Hbad. by injection Hbad.
      * intros row s -> Hid Hint. simpl in Hbad. rewrite Hid in Hbad. simpl in Hbad.
        rewrite Hint in Hbad. by injection Hbad.
      * intros row s id -> Hid Hint Hlatex. simpl in Hbad. rewrite Hid in Hbad.
        simpl in Hbad. rewrite Hint in Hbad. simpl in Hbad. rewrite Hlatex in Hbad.
        by injection Hbad.
Qed.

Lemma load_symbols_csv_bad_row_sample :
  load_symbols_csv (H := short_reader)
    (one_file "symbols.csv" (Ok (None : option json))) "symbols.csv"
  = Raise (KeyError "latex").
Proof.
  apply (proj2 (load_symbols_csv_bad_row (H := short_reader)
                  (one_file "symbols.csv" (Ok (None : option json))) "symbols.csv"
                  (KeyError "latex"))
           None sample_rows (Ok [("symbol_id", Some "7")])
           [Ok [("symbol_id", Some "x")]] sample_symbols); reflexivity.
Defined.

Lemma add_missing_fold `{StrPredicates} (existing_ids : gset Z)
    (l : list (Z * string)) (db : store) (n : nat) :
  NoDup l.*1 →
  (∀ id, id ∈ l.*1 → id ∉ existing_ids → db !! id = None) →
  let r :=
    foldl (λ (state : store * nat) '(symbol_id, latex_command),
             if decide (symbol_id ∈ existing_ids) then state
             else (<[symbol_id := create_basic_mapping symbol_id latex_command]> state.1,
                   S state.2))
          (db, n) l in
  (∀ i, r.1 !! i
        = if decide (i ∈ existing_ids) then db !! i
          else match (list_to_map l : gmap Z string) !! i with
               | Some latex_command => Some (create_basic_mapping i latex_command)
               | None => db !! i
               end)
  ∧ (size r.1 + n = size db + r.2)%nat.
Proof.
  revert db n. induction l as [|[k c] l IH]; intros db n Hnd Hfresh.
  - simpl. split; [|lia]. intros i. rewrite lookup_empty. by destruct (decide _).
  - rewrite fmap_cons in Hnd. apply NoDup_cons in Hnd as [Hk Hnd].
    cbn [foldl]. destruct (decide (k ∈ existing_ids)) as [Hin|Hout].
    + destruct (IH db n Hnd) as [Hlookup Hsize].
      { intros id Hid. apply Hfresh. rewrite fmap_cons. by apply list_elem_of_further. }
      split; [|done]. intros i. rewrite Hlookup.
      destruct (decide (i ∈ existing_ids)) as [Hi|Hi]; [done|].
      simpl. rewrite lookup_insert_ne; [done|]. by intros ->.
    + assert (db !! k = None) as Hnone.
      { apply Hfresh; [|done]. rewrite fmap_cons. apply list_elem_of_here. }
      cbn [fst snd].
      destruct (IH (<[k := create_basic_mapping k c]> db) (S n) Hnd)
        as [Hlookup Hsize].
      { intros id Hid Hnot. rewrite lookup_insert_ne by (by intros ->).
        apply Hfresh; [|done]. rewrite fmap_cons. by apply list_elem_of_further. }
      split.
      * intros i. rewrite Hlookup.
        destruct (decide (i ∈ existing_ids)) as [Hi|Hi].
        -- rewrite lookup_insert_ne; [done|]. by intros ->.
        -- simpl. destruct (decide (i = k)) as [->|Hne].
           ++ rewrite !lookup_insert_eq.
              by rewrite (not_elem_of_list_to_map_1 l k Hk).
           ++ by rewrite !lookup_insert_ne.
      * rewrite map_size_insert_None in Hsize by done. lia.
Qed.

Lemma add_missing_result `{StrPredicates} (existing_db : store)
    (all_symbols : gmap Z string) :
  let r := add_missing (dom existing_db) all_symbols existing_db in
  (∀ id, r.1 !! id
         = match existing_db !! id with
           | Some mapping => Some mapping
           | None => create_basic_mapping id <$> all_symbols !! id
           end)
  ∧ size r.1 = (size existing_db + r.2)%nat.
Proof.
  intros r.
  destruct (add_missing_fold (dom existing_db) (map_to_list all_symbols) existing_db 0)
    as [Hlookup Hsize].
  { apply NoDup_fst_map_to_list. }
  { intros id _ Hid. by apply not_elem_of_dom. }
  fold (add_missing (dom existing_db) all_symbols existing_db) in Hlookup, Hsize.
  fold r in Hlookup, Hsize. split; [|lia].
  intros id. rewrite Hlookup, list_to_map_to_list.
  destruct (decide (id ∈ dom existing_db)) as [Hin|Hout].
  - apply elem_of_dom in Hin as [m Hm]. by rewrite Hm.
  - apply not_elem_of_dom in Hout. rewrite Hout. by destruct (all_symbols !! id).
Qed.

(** X24: [generate_full_database] raises what reading the symbols raises,
    and then prints nothing. Otherwise the database it builds has the
    mapping of the existing one for each of its ids and the basic mapping of
    the command for each other id of the symbols, and no other id; it is
    keyed by [symbol_class_id] when the existing one is; the counts it
    prints add up: the total is the curated ones and the generated ones;
    and it returns that database after saving it, or raises what saving
    raises. *)
Theorem generate_full_database_result {text : Type} `{JsonCodec text}
    `{!FileWriter text} `{!CsvReader text} `{StrPredicates}
    (fs : filesystem text) (symbols_csv_path : string) (existing_db : store)
    (output_path : string) :
  match load_symbols_csv fs symbols_csv_path with
  | Raise e =>
      generate_full_database fs symbols_csv_path existing_db output_path = (Raise e, [])
  | Ok all_symbols =>
      ∃ full_db missing_count,
        (∀ id, full_db !! id
               = match existing_db !! id with
                 | Some mapping => Some mapping
                 | None => create_basic_mapping id <$> all_symbols !! id
                 end)
        ∧ size full_db = (size existing_db + missing_count)%nat
        ∧ (keyed existing_db → keyed full_db)
        ∧ let report :=
            [ Generated_mappings_for missing_count;
              Total_symbols_in_database (size existing_db + missing_count);
              Manually_curated_mappings (size existing_db);
              Auto_generated_mappings missing_count ] in
          generate_full_database fs symbols_csv_path existing_db output_path
          = match save_to_file full_db output_path fs with
            | Raise e => (Raise e, report)
            | Ok fs' =>
                (Ok (full_db, fs'), report ++ [Complete_database_saved_to output_path])
            end
  end.
Proof.
  unfold generate_full_database.
  destruct (load_symbols_csv fs symbols_csv_path) as [all_symbols|e]; [|done].
  destruct (add_missing_result existing_db all_symbols) as [Hlookup Hsize].
  destruct (add_missing (dom existing_db) all_symbols existing_db)
    as [full_db missing_count]. simpl in Hlookup, Hsize.
  exists full_db, missing_count. split; [done|]. split; [done|]. split.
  - intros Hkeyed id mapping. rewrite Hlookup.
    destruct (existing_db !! id) as [m|] eqn:Hid.
    + intros [= <-]. by apply (Hkeyed id m).
    + destruct (all_symbols !! id); [|done]. by intros [= <-].
  - cbv zeta. rewrite size_dom, <- Hsize. by destruct (save_to_file _ _ _).
Qed.

Lemma from_json_to_json_keyed {text : Type} `{JsonCodecLaws text} (self : store) :
  keyed self → from_json (to_json self) = Ok self.
Proof.
  intros Hkeyed. unfold from_json, to_json.
  rewrite (loads_dumps _ (to_json_data_wf self)). simpl.
  rewrite from_json_data_to_json_data. f_equal. apply map_eq. intros i.
  rewrite map_lookup_imap. destruct (self !! i) as [m|] eqn:Hi; [|done]. simpl.
  specialize (Hkeyed i m Hi). simpl in Hkeyed. unfold rekey. rewrite <- Hkeyed.
  by destruct m.
Qed.

Lemma generate_full_database_inv {text : Type} `{JsonCodec text}
    `{!FileWriter text} `{!CsvReader text} `{StrPredicates}
    (fs fs' : filesystem text) (symbols_csv_path : string) (existing_db : store)
    (output_path : string) (full_db : store) (report : list report_line) :
  generate_full_database fs symbols_csv_path existing_db output_path
  = (Ok (full_db, fs'), report) →
  ∃ all_symbols,
    load_symbols_csv fs symbols_csv_path = Ok all_symbols
    ∧ (∀ id, full_db !! id
             = match existing_db !! id with
               | Some mapping => Some mapping
               | None => create_basic_mapping id <$> all_symbols !! id
               end)
    ∧ save_to_file full_db output_path fs = Ok fs'.
Proof.
  unfold generate_full_database.
  destruct (load_symbols_csv fs symbols_csv_path) as [all_symbols|e]; [|done].
  destruct (add_missing_result existing_db all_symbols) as [Hlookup _].
  destruct (add_missing (dom existing_db) all_symbols existing_db)
    as [db missing_count]. simpl in Hlookup.
  destruct (save_to_file db output_path fs) as [fs0|] eqn:Hsave; [|done].
  intros [= -> -> _]. by exists all_symbols.
Qed.

(** X25: the file that [generate_full_database] wrote for an existing
    database that is keyed by [symbol_class_id] and holds the seed mappings
    reads back as the database it returned; merging it into a new store
    gives that database, and so an engine built afterwards, by its
    constructor or by [create_suggestion_engine], has it for its store and
    prints nothing. *)
Theorem generated_database_is_loaded {text : Type} `{JsonCodecLaws text}
    `{!FileWriter text} `{!FileWriterLaws text} `{!CsvReader text} `{StrPredicates}
    {renderer : Type}
    (fs fs' : filesystem text) (symbols_csv_path : string) (existing_db : store)
    (output_path : string) (full_db : store) (report : list report_line) :
  keyed existing_db →
  SymbolMappingDatabase.init ⊆ existing_db →
  generate_full_database fs symbols_csv_path existing_db output_path
  = (Ok (full_db, fs'), report) →
  from_json_file fs' output_path = Ok full_db
  ∧ load_full_mapping fs' output_path SymbolMappingDatabase.init = (Ok (), full_db)
  ∧ (∀ r : option renderer,
       SemanticSuggestionEngine.init fs' output_path None None r true
       = (Ok (SemanticSuggestionEngine.make full_db
                (CandidateRanker.make full_db (Float.lit 6 1) (Float.lit 4 1)) r), []))
  ∧ create_suggestion_engine (renderer := renderer) fs' output_path
      (Float.lit 6 1) (Float.lit 4 1) true
    = (Ok (SemanticSuggestionEngine.make full_db
             (CandidateRanker.make full_db (Float.lit 6 1) (Float.lit 4 1)) None), []).
Proof.
  intros Hkeyed Hseed (all_symbols & _ & Hlookup & Hsave)%generate_full_database_inv.
  assert (keyed full_db) as Hfull.
  { intros id mapping. rewrite Hlookup.
    destruct (existing_db !! id) as [m|] eqn:Hid.
    - intros [= <-]. by apply (Hkeyed id m).
    - destruct (all_symbols !! id); [|done]. by intros [= <-]. }
  unfold save_to_file in Hsave. apply write_then_read in Hsave as [Hexists Hread].
  assert (from_json_file fs' output_path = Ok full_db) as Hfile.
  { unfold from_json_file. rewrite Hread. simpl. by apply from_json_to_json_keyed. }
  assert (load_full_mapping fs' output_path SymbolMappingDatabase.init
          = (Ok (), full_db)) as Hload.
  { unfold load_full_mapping. rewrite Hfile. f_equal. apply map_eq. intros id.
    rewrite merge_lookup.
    destruct (SymbolMappingDatabase.init !! id) as [m|] eqn:Hid; [|done].
    symmetry. rewrite Hlookup.
    by rewrite (lookup_weaken _ _ _ _ Hid Hseed). }
  split; [done|]. split; [done|]. split.
  - intros r. unfold SemanticSuggestionEngine.init, SemanticSuggestionEngine.init_mapping_db.
    rewrite Hexists, Hload. cbn [andb]. cbv iota beta.
    by rewrite default_weights_valid.
  - unfold create_suggestion_engine. rewrite Hexists, Hload. cbn [andb]. cbv iota beta.
    by rewrite default_weights_valid.
Qed.

Lemma generated_database_is_loaded_sample :
  ∃ full_db fs' report,
    generate_full_database (one_file "symbols.csv" (Ok (None : option json)))
      "symbols.csv" SymbolMappingDatabase.init "full.json"
    = (Ok (full_db, fs'), report)
    ∧ from_json_file fs' "full.json" = Ok full_db
    ∧ load_full_mapping fs' "full.json" SymbolMappingDatabase.init = (Ok (), full_db).
Proof.
  edestruct (λ fs' full_db report,
    generated_database_is_loaded (text := option json) (renderer := ())
      (one_file "symbols.csv" (Ok None)) fs' "symbols.csv"
      SymbolMappingDatabase.init "full.json" full_db report)
    as (Hfile & Hload & _).
  - apply (bool_decide_unpack _). vm_compute. exact I.
  - reflexivity.
  - reflexivity.
  - eexists _, _, _. split; [reflexivity|]. split; [exact Hfile|exact Hload].
Defined.

(** X26: a symbol for which the generator made the mapping has one
    suggestion when it is selected, with at least one candidate per symbol
    asked for: its command of the symbols file, with priority 1.0. *)
Theorem generated_symbol_suggestion {text : Type} `{JsonCodec text}
    `{!FileWriter text} `{!CsvReader text} `{StrPredicates}
    (fs fs' : filesystem text) (symbols_csv_path : string) (existing_db : store)
    (output_path : string) (full_db : store) (report : list report_line)
    (all_symbols : gmap Z string) (symbol_id : Z) (latex_command : string)
    (vision_weight math_weight confidence : float) (k : Z) :
  generate_full_database fs symbols_csv_path existing_db output_path
  = (Ok (full_db, fs'), report) →
  load_symbols_csv fs symbols_csv_path = Ok all_symbols →
  existing_db !! symbol_id = None →
  all_symbols !! symbol_id = Some latex_command →
  1 ≤ k →
  ∃ suggestion,
    rank_candidates_from_top_k
      (CandidateRanker.make full_db vision_weight math_weight)
      [(symbol_id, confidence)] k = [suggestion]
    ∧ RankedCandidate.latex_command suggestion = latex_command
    ∧ RankedCandidate.symbol_class_id suggestion = symbol_id
    ∧ RankedCandidate.vision_confidence suggestion = confidence
    ∧ RankedCandidate.math_priority suggestion = Float.lit 10 1
    ∧ RankedCandidate.combined_score suggestion
      = (confidence * vision_weight + Float.lit 10 1 * math_weight)%flt.
Proof.
  intros (all' & Hall' & Hlookup & _)%generate_full_database_inv Hall Hnew Hcmd Hk.
  rewrite Hall in Hall'. injection Hall' as <-.
  specialize (Hlookup symbol_id). rewrite Hnew, Hcmd in Hlookup. simpl in Hlookup.
  rewrite rank_candidates_from_top_k_sorted. simpl.
  unfold suggestions_for, get_ranked_candidates, get_mapping. cbn [fst snd mapping_db].
  rewrite Hlookup. cbn. unfold slice_to, slice_bound. cbn [length].
  replace (Z.to_nat (Z.min (Z.of_nat 1) (if k <? 0 then Z.max 0 (Z.of_nat 1 + k) else k)))
    with 1%nat by (destruct (k <? 0) eqn:Hneg; lia).
  eexists. split; [reflexivity|]. by repeat split.
Qed.

Lemma generated_symbol_suggestion_sample :
  ∃ suggestion,
    rank_candidates_from_top_k
      (CandidateRanker.make
         (add_missing (dom SymbolMappingDatabase.init) (list_to_map sample_symbols)
            SymbolMappingDatabase.init).1
         (Float.lit 6 1) (Float.lit 4 1))
      [(300, Float.lit 9 1)] 3 = [suggestion]
    ∧ RankedCandidate.latex_command suggestion = "\mathcal{L}"
    ∧ RankedCandidate.symbol_class_id suggestion = 300
    ∧ RankedCandidate.vision_confidence suggestion = Float.lit 9 1
    ∧ RankedCandidate.math_priority suggestion = Float.lit 10 1
    ∧ RankedCandidate.combined_score suggestion
      = (Float.lit 9 1 * Float.lit 6 1 + Float.lit 10 1 * Float.lit 4 1)%flt.
Proof.
  eapply (generated_symbol_suggestion (text := option json)
            (one_file "symbols.csv" (Ok None)) _ "symbols.csv"
            SymbolMappingDatabase.init "full.json" _ _ (list_to_map sample_symbols)
            300 "\mathcal{L}");
    [reflexivity|reflexivity|reflexivity|reflexivity|lia].
Defined.
